(** * Smartfolio: portfolio metrics and LP-based rebalancing

    A shallow embedding of [app/scripts/stats.py], [app/scripts/min_beta.py]
    and [app/scripts/balance_ratio.py].

    Conventions of the embedding.
    - Python numbers (ints and floats) are exact rationals [Q]; binary
      floating-point rounding, NaN and infinities are outside the model.
      Numeric results are compared with [==] (equality of rationals).
    - An equity is a Python dict with string keys: a [gmap string Q].
      A missing key raises [KeyError], as [equity['beta']] does.
    - Exceptions are values of [exn]; computations that may raise live in
      the [result] monad and follow Python's left-to-right evaluation order.
    - The optimizers mutate the dicts of the list they are given.  The list
      is taken to hold pairwise distinct dict objects, so the caller's store
      is the list itself, and an [outcome] records the store at exit.
    - [scipy.optimize.linprog] is external: an optimizer is a [call] that
      either finishes on its own or hands one problem to the solver and
      continues with the solver's reply. *)

From Stdlib Require Import QArith Qround Qabs Qminmax Lqa.
From stdpp Require Import gmap strings list.

(** ** The fragment of the Python runtime used by the scripts *)

Module Py.

Inductive exn : Type :=
| KeyError (key : string)
| ZeroDivisionError
| TypeError
| IndexError
| ValueError.

Inductive result (A : Type) : Type :=
| Ok (a : A)
| Raise (e : exn).

Arguments Ok {A} a.
Arguments Raise {A} e.

#[global] Instance result_ret : MRet result := @Ok.

#[global] Instance result_bind : MBind result :=
  λ A B (k : A → result B) (m : result A),
    match m with
    | Ok a => k a
    | Raise e => Raise e
    end.

(** [d[key]] on a dict. *)
Definition getitem (d : gmap string Q) (key : string) : result Q :=
  match d !! key with
  | Some v => Ok v
  | None => Raise (KeyError key)
  end.

(** [a / b]: true division raises on a zero divisor, for ints and floats. *)
Definition truediv (a b : Q) : result Q :=
  if Qeq_bool b 0 then Raise ZeroDivisionError else Ok (a / b)%Q.

(** [sum(l)]: starts from 0 and adds from the left. *)
Definition py_sum (l : list Q) : Q := fold_left Qplus l 0%Q.

(** [round(x)] with one argument: the nearest integer, ties to the even one. *)
Definition py_round (x : Q) : Z :=
  let f := Qfloor x in
  match (x - inject_Z f ?= 1 # 2)%Q with
  | Lt => f
  | Gt => (f + 1)%Z
  | Eq => if Z.even f then f else (f + 1)%Z
  end.

End Py.

Import Py.

(** ** stats.py *)

Module Stats.

(** The sub-expression [equity['qty'] * equity['avg_price']]. *)
Definition investment (equity : gmap string Q) : result Q :=
  qty ← getitem equity "qty";
  avg_price ← getitem equity "avg_price";
  mret (qty * avg_price)%Q.

(** The sub-expression
    [equity['qty'] * equity['avg_price'] / total_investment]. *)
Definition weight (total_investment : Q) (equity : gmap string Q) : result Q :=
  value ← investment equity;
  truediv value total_investment.

Definition beta_term (total_investment : Q) (equity : gmap string Q) : result Q :=
  w ← weight total_investment equity;
  beta ← getitem equity "beta";
  mret (w * beta)%Q.

Definition return_term (total_investment : Q) (equity : gmap string Q) : result Q :=
  w ← weight total_investment equity;
  ret ← getitem equity "return";
  mret (w * ret)%Q.

Definition std_dev_term (total_investment benchmark_return risk_free_rate : Q)
    (equity : gmap string Q) : result Q :=
  w ← weight total_investment equity;
  beta ← getitem equity "beta";
  mret (w * beta * (benchmark_return - risk_free_rate))%Q.

Definition calculate_portfolio_metrics (equities : list (gmap string Q))
    (benchmark_return risk_free_rate : Q) : result (Q * Q * Q) :=
  investments ← mapM investment equities;
  let total_investment := py_sum investments in
  beta_terms ← mapM (beta_term total_investment) equities;
  let portfolio_beta := py_sum beta_terms in
  return_terms ← mapM (return_term total_investment) equities;
  let portfolio_return := py_sum return_terms in
  let portfolio_alpha :=
    (portfolio_return - risk_free_rate
     - portfolio_beta * (benchmark_return - risk_free_rate))%Q in
  std_dev_terms ←
    mapM (std_dev_term total_investment benchmark_return risk_free_rate) equities;
  let portfolio_std_dev := py_sum std_dev_terms in
  sharpe_ratio ← truediv (portfolio_return - risk_free_rate)%Q portfolio_std_dev;
  mret (portfolio_beta, portfolio_alpha, sharpe_ratio).

Definition expected_return_CAPM (risk_free_rate beta market_return : Q) : Q :=
  (risk_free_rate + beta * (market_return - risk_free_rate))%Q.

End Stats.

(** ** The interface of [scipy.optimize.linprog] *)

Module Scipy.

(** The arguments of [linprog(c, A_eq=A_eq, b_eq=b_eq, bounds=bounds)]:
    minimise [c . x] subject to [A_eq x = b_eq] and the bounds.  A bound
    pair [(lo, None)] has no upper end. *)
Record lp : Type := {
  lp_c : list Q;
  lp_A_eq : list (list Q);
  lp_b_eq : list Q;
  lp_bounds : list (Q * option Q)
}.

(** The fields of the returned [OptimizeResult] that matter here.  [x] may
    be [None] when no vector is available; [status] is 0 on success,
    2 when the problem is infeasible and 3 when it is unbounded. *)
Record OptimizeResult : Type := {
  res_x : option (list Q);
  res_success : bool;
  res_status : Z
}.

(** What a call to the solver does: it returns a result object or raises. *)
Inductive reply : Type :=
| Result (res : OptimizeResult)
| Throws (e : exn).

Definition infeasible_status : Z := 2.
Definition unbounded_status : Z := 3.

Fixpoint dot (a b : list Q) : Q :=
  match a, b with
  | a0 :: a', b0 :: b' => (a0 * b0 + dot a' b')%Q
  | _, _ => 0%Q
  end.

Definition within (bound : Q * option Q) (v : Q) : Prop :=
  (fst bound <= v)%Q ∧
  match snd bound with
  | Some hi => (v <= hi)%Q
  | None => True
  end.

(** [xs] satisfies every constraint of [problem]. *)
Definition feasible (problem : lp) (xs : list Q) : Prop :=
  length xs = length (lp_c problem) ∧
  Forall2 (λ row b, dot row xs == b) (lp_A_eq problem) (lp_b_eq problem) ∧
  Forall2 within (lp_bounds problem) xs.

End Scipy.

Import Scipy.

(** ** min_beta.py and balance_ratio.py *)

(** The caller's list of equity dicts when an optimizer exits, normally or
    with an exception. *)
Inductive outcome : Type :=
| Returned (equities : list (gmap string Q))
| Failed (e : exn) (equities : list (gmap string Q)).

Definition store (o : outcome) : list (gmap string Q) :=
  match o with
  | Returned equities => equities
  | Failed _ equities => equities
  end.

(** An optimizer up to its call of the solver. *)
Inductive call : Type :=
| Done (o : outcome)
| Linprog (problem : lp) (k : reply → outcome).

Definition run (linprog : lp → reply) (p : call) : outcome :=
  match p with
  | Done o => o
  | Linprog problem k => k (linprog problem)
  end.

Module Rebalance.

(** [res.x[i]]: subscripting [None] is a [TypeError], an index past the
    end an [IndexError]. *)
Definition subscript (x : option (list Q)) (i : nat) : result Q :=
  match x with
  | None => Raise TypeError
  | Some xs =>
      match xs !! i with
      | Some v => Ok v
      | None => Raise IndexError
      end
  end.

Definition after_head (equity : gmap string Q) (o : outcome) : outcome :=
  match o with
  | Returned rest => Returned (equity :: rest)
  | Failed e rest => Failed e (equity :: rest)
  end.

(** [for i, equity in enumerate(equities): equity['qty'] = round(res.x[i])],
    from index [i] on.  An exception leaves the dicts already visited
    updated and the others as they were. *)
Fixpoint assign_qty (x : option (list Q)) (i : nat)
    (equities : list (gmap string Q)) : outcome :=
  match equities with
  | [] => Returned []
  | equity :: rest =>
      match subscript x i with
      | Raise e => Failed e (equity :: rest)
      | Ok v =>
          after_head (<["qty" := inject_Z (py_round v)]> equity)
                     (assign_qty x (S i) rest)
      end
  end.

(** [equity['avg_price'] * equity['qty']] in the comprehension of [b_eq]. *)
Definition budget_term (equity : gmap string Q) : result Q :=
  avg_price ← getitem equity "avg_price";
  qty ← getitem equity "qty";
  mret (avg_price * qty)%Q.

Section Rebalancer.

(** The two scripts differ only in the comprehension that builds [c]; the
    lines that build [A_eq], [b_eq] and [bounds], call the solver and
    write the quantities back are the same text in both. *)
Variable coefficient : gmap string Q → result Q.

Definition formulate (equities : list (gmap string Q)) : result lp :=
  c ← mapM coefficient equities;
  row ← mapM (λ equity, getitem equity "avg_price") equities;
  terms ← mapM budget_term equities;
  mret {| lp_c := c;
          lp_A_eq := [row];
          lp_b_eq := [py_sum terms];
          lp_bounds := map (λ _, (0%Q, None)) equities |}.

Definition rebalance (equities : list (gmap string Q)) : call :=
  match formulate equities with
  | Raise e => Done (Failed e equities)
  | Ok problem =>
      Linprog problem
        (λ r, match r with
              | Throws e => Failed e equities
              | Result res => assign_qty (res_x res) 0 equities
              end)
  end.

End Rebalancer.

End Rebalance.

Module MinBeta.

Definition minimize_portfolio_beta (equities : list (gmap string Q)) : call :=
  Rebalance.rebalance (λ equity, getitem equity "beta") equities.

End MinBeta.

Module BalanceRatio.

Definition sharpe_coefficient (benchmark_return risk_free_rate : Q)
    (equity : gmap string Q) : result Q :=
  ret ← getitem equity "return";
  beta ← getitem equity "beta";
  ratio ← truediv (ret - risk_free_rate)%Q
                  (beta * (benchmark_return - risk_free_rate))%Q;
  mret (- ratio)%Q.

Definition maximize_sharpe_ratio (equities : list (gmap string Q))
    (benchmark_return risk_free_rate : Q) : call :=
  Rebalance.rebalance (sharpe_coefficient benchmark_return risk_free_rate)
                      equities.

End BalanceRatio.

(** ** Vocabulary of the statements *)

(** The value stored under [key], for dicts that have the key. *)
Definition field (key : string) (d : gmap string Q) : Q :=
  default 0%Q (d !! key).

Definition has_keys (keys : list string) (d : gmap string Q) : Prop :=
  Forall (λ key, is_Some (d !! key)) keys.

(** Total market value of a portfolio: the sum of [avg_price * qty]. *)
Definition portfolio_value (equities : list (gmap string Q)) : Q :=
  py_sum (map (λ d, field "avg_price" d * field "qty" d)%Q equities).

(** Total investment as [stats.py] writes it: the sum of [qty * avg_price]. *)
Definition total_investment (equities : list (gmap string Q)) : Q :=
  py_sum (map (λ d, field "qty" d * field "avg_price" d)%Q equities).

(** Section 7 of the specification names kinds of error, not exceptions.
    The scripts raise nothing themselves; of the exceptions the runtime
    raises, a division by zero is the "ill-defined arithmetic input" kind
    and a missing key the "malformed portfolio input" kind.  No exception
    of the model is of the kind reserved for a solver failure. *)
Inductive error_kind : Type :=
| DomainError
| OptimizationError
| ValidationError.

Definition kind_of (e : exn) : option error_kind :=
  match e with
  | ZeroDivisionError => Some DomainError
  | KeyError _ => Some ValidationError
  | TypeError | IndexError | ValueError => None
  end.

(** The docstring example shared by the three scripts. *)
Definition example_equities : list (gmap string Q) :=
  [ list_to_map [("beta", 1.2%Q); ("qty", 100%Q); ("avg_price", 50%Q);
                 ("return", 0.08%Q)];
    list_to_map [("beta", 0.9%Q); ("qty", 150%Q); ("avg_price", 30%Q);
                 ("return", 0.06%Q)] ].

(** The quantities of the calculator, written with [field]. *)
Definition weight_of (equities : list (gmap string Q)) (d : gmap string Q) : Q :=
  (field "qty" d * field "avg_price" d / total_investment equities)%Q.

Definition portfolio_beta (equities : list (gmap string Q)) : Q :=
  py_sum (map (λ d, weight_of equities d * field "beta" d)%Q equities).

Definition portfolio_return (equities : list (gmap string Q)) : Q :=
  py_sum (map (λ d, weight_of equities d * field "return" d)%Q equities).

Definition portfolio_std_dev (equities : list (gmap string Q))
    (benchmark_return risk_free_rate : Q) : Q :=
  py_sum (map (λ d, weight_of equities d * field "beta" d
                    * (benchmark_return - risk_free_rate))%Q equities).

Definition metric_keys : list string := ["beta"; "qty"; "avg_price"; "return"].

(** Either optimizer, applied to [equities]. *)
Definition optimizers (equities : list (gmap string Q)) (p : call) : Prop :=
  p = MinBeta.minimize_portfolio_beta equities ∨
  ∃ benchmark_return risk_free_rate,
    p = BalanceRatio.maximize_sharpe_ratio equities benchmark_return
                                           risk_free_rate.

(** The solver answers [problem] with a vector that satisfies its
    constraints. *)
Definition solves (linprog : lp → reply) (problem : lp) (xs : list Q) : Prop :=
  ∃ res, linprog problem = Result res ∧ res_x res = Some xs ∧
         feasible problem xs.

(** The optimizer [p] succeeds with solution [xs]: it reaches the solver,
    and the solver answers the problem it is handed with the feasible
    vector [xs]. *)
Definition succeeds (linprog : lp → reply) (p : call) (xs : list Q) : Prop :=
  ∃ problem k, p = Linprog problem k ∧ solves linprog problem xs.

(** The write-back of a whole solution vector. *)
Definition with_rounded_qty (equities : list (gmap string Q)) (xs : list Q)
    : list (gmap string Q) :=
  zip_with (λ d v, <["qty" := inject_Z (py_round v)]> d) equities xs.

(** The largest [avg_price] of a portfolio with prices that are not
    negative (0 for the empty portfolio). *)
Definition max_avg_price (equities : list (gmap string Q)) : Q :=
  foldr Qmax 0%Q (map (field "avg_price") equities).

(** How an optimizer exits: [None] for a normal return. *)
Definition exit_of (o : outcome) : option exn :=
  match o with
  | Returned _ => None
  | Failed e _ => Some e
  end.

Definition quantities (equities : list (gmap string Q)) : list (option Q) :=
  map (λ d : gmap string Q, d !! "qty") equities.

(** Two dicts that agree on every key [min_beta.py] mentions; they may
    differ on 'return' and on any other key. *)
Definition agree_except_return (d1 d2 : gmap string Q) : Prop :=
  d1 !! "beta" = d2 !! "beta" ∧ d1 !! "qty" = d2 !! "qty" ∧
  d1 !! "avg_price" = d2 !! "avg_price".

(** The docstring example of [min_beta.py]: no 'return' key. *)
Definition min_beta_example : list (gmap string Q) :=
  [ list_to_map [("beta", 1.2%Q); ("qty", 100%Q); ("avg_price", 50%Q)];
    list_to_map [("beta", 0.9%Q); ("qty", 150%Q); ("avg_price", 30%Q)] ].

(** A solver reply for [min_beta_example]: the whole value, 9500, goes to
    the first equity, whose beta per unit of price is the smaller one. *)
Definition all_in_first (problem : lp) : reply :=
  Result {| res_x := Some [190%Q; 0%Q]; res_success := true; res_status := 0 |}.

(** A one-equity portfolio, and a solver reply that keeps its quantity. *)
Definition first_equity : gmap string Q :=
  list_to_map [("beta", 1.2%Q); ("qty", 100%Q); ("avg_price", 50%Q);
               ("return", 0.08%Q)].

Definition single_equity : list (gmap string Q) := [first_equity].

Definition keeps_quantity (problem : lp) : reply :=
  Result {| res_x := Some [100%Q]; res_success := true; res_status := 0 |}.

(** A portfolio whose budget is negative, so that no vector within the
    bounds meets the equality constraint, and the reply of a solver that
    reports the infeasibility and leaves its last iterate in [x]. *)
Definition short_position : list (gmap string Q) :=
  [ list_to_map [("beta", 1.2%Q); ("qty", (-100)%Q); ("avg_price", 50%Q)] ].

Definition reports_infeasible (problem : lp) : reply :=
  Result {| res_x := Some [0%Q]; res_success := false;
            res_status := infeasible_status |}.



(** [xs] is feasible for [problem] and no feasible vector has a smaller
    objective: what the solver promises on success. *)
Definition optimal (problem : lp) (xs : list Q) : Prop :=
  feasible problem xs ∧
  ∀ ys, feasible problem ys →
        (dot (lp_c problem) xs <= dot (lp_c problem) ys)%Q.

(** The problem both optimizers build for the empty portfolio. *)
Definition empty_problem : lp :=
  {| lp_c := []; lp_A_eq := [[]]; lp_b_eq := [0%Q]; lp_bounds := [] |}.

(** Solver replies used as examples: one entry short for a two-equity
    portfolio, and a half-integral answer for [min_beta_example]. *)
Definition one_entry (problem : lp) : reply :=
  Result {| res_x := Some [190%Q]; res_success := true; res_status := 0 |}.

(** ** Basic facts about the runtime fragment *)

Section RuntimeFacts.

Local Open Scope Q_scope.

Lemma getitem_field (d : gmap string Q) (key : string) :
  is_Some (d !! key) → getitem d key = Ok (field key d).
Proof.
  intros [v Hv]. unfold getitem, field. rewrite Hv. reflexivity.
Qed.

Lemma has_keys_lookup (keys : list string) (d : gmap string Q) (key : string) :
  has_keys keys d → key ∈ keys → is_Some (d !! key).
Proof.
  unfold has_keys. rewrite Forall_forall. auto.
Qed.

Lemma truediv_nonzero (a b : Q) : ¬ b == 0 → truediv a b = Ok (a / b)%Q.
Proof.
  intros Hb. unfold truediv.
  destruct (Qeq_bool b 0) eqn:E; [|reflexivity].
  apply Qeq_bool_iff in E. contradiction.
Qed.

Lemma truediv_zero (a b : Q) : b == 0 → truediv a b = Raise ZeroDivisionError.
Proof.
  intros Hb. unfold truediv. apply Qeq_bool_iff in Hb. rewrite Hb. reflexivity.
Qed.

Lemma mapM_cons {A B : Type} (f : A → result B) (a : A) (l : list A) :
  mapM f (a :: l) = (b ← f a; r ← mapM f l; mret (b :: r)).
Proof. reflexivity. Qed.

Lemma mapM_Ok {A B : Type} (f : A → result B) (g : A → B) (l : list A) :
  Forall (λ a, f a = Ok (g a)) l → mapM f l = Ok (map g l).
Proof.
  induction 1 as [|a l Ha _ IH]; [reflexivity|].
  cbn. rewrite Ha. cbn. rewrite IH. reflexivity.
Qed.

(** A comprehension whose elements either evaluate or raise [err] raises
    [err] as soon as one of them does. *)
Lemma mapM_Raise {A B : Type} (f : A → result B) (err : exn) (l : list A) :
  Forall (λ a, (∃ b, f a = Ok b) ∨ f a = Raise err) l →
  Exists (λ a, f a = Raise err) l →
  mapM f l = Raise err.
Proof.
  induction 1 as [|a l Ha Hl IH]; intros Hex.
  - inversion Hex.
  - cbn. destruct Ha as [[b Hb]|Hr].
    + rewrite Hb. cbn. inversion Hex as [? ? Hhd|? ? Htl]; subst.
      * congruence.
      * rewrite (IH Htl). reflexivity.
    + rewrite Hr. reflexivity.
Qed.

Lemma mapM_Forall2 {A B : Type} (f g : A → result B) (l1 l2 : list A) :
  Forall2 (λ a1 a2, f a1 = g a2) l1 l2 → mapM f l1 = mapM g l2.
Proof.
  induction 1 as [|a1 a2 l1 l2 Ha _ IH]; [reflexivity|].
  cbn. rewrite Ha, IH. reflexivity.
Qed.

Lemma mapM_length {A B : Type} (f : A → result B) (l : list A) (r : list B) :
  mapM f l = Ok r → length r = length l.
Proof.
  revert r. induction l as [|a l IH]; intros r; cbn.
  - intros [= <-]. reflexivity.
  - destruct (f a) as [b|e]; cbn; [|discriminate].
    destruct (mapM f l) as [r'|e]; cbn; [|discriminate].
    intros [= <-]. cbn. f_equal. apply IH. reflexivity.
Qed.

Lemma fold_left_Qplus_acc (l : list Q) (acc : Q) :
  fold_left Qplus l acc == acc + fold_left Qplus l 0.
Proof.
  revert acc. induction l as [|a l IH]; intros acc; cbn.
  - ring.
  - rewrite (IH (acc + a)%Q), (IH (0 + a)%Q). ring.
Qed.

Lemma py_sum_nil : py_sum [] = 0%Q.
Proof. reflexivity. Qed.

Lemma py_sum_cons (a : Q) (l : list Q) : py_sum (a :: l) == a + py_sum l.
Proof.
  unfold py_sum. cbn. rewrite fold_left_Qplus_acc. ring.
Qed.

(** Sums of pointwise equal lists are equal. *)
Lemma py_sum_Forall2 (l1 l2 : list Q) :
  Forall2 Qeq l1 l2 → py_sum l1 == py_sum l2.
Proof.
  induction 1 as [|a b l1 l2 Hab _ IH]; [reflexivity|].
  rewrite !py_sum_cons, Hab, IH. reflexivity.
Qed.

Lemma py_sum_scale (k : Q) (l : list Q) :
  py_sum (map (λ a, a * k)%Q l) == py_sum l * k.
Proof.
  induction l as [|a l IH]; cbn [map].
  - rewrite py_sum_nil. ring.
  - rewrite !py_sum_cons, IH. ring.
Qed.

End RuntimeFacts.

(** ** Facts about the metrics calculator *)

Section MetricsFacts.

Local Open Scope Q_scope.

Import Stats.

Lemma investment_field (d : gmap string Q) :
  has_keys ["qty"; "avg_price"]%string d →
  investment d = Ok (field "qty" d * field "avg_price" d).
Proof.
  intros Hk. unfold investment.
  rewrite !getitem_field by (eapply has_keys_lookup; [exact Hk|set_solver]).
  reflexivity.
Qed.

Lemma investments_fields (equities : list (gmap string Q)) :
  Forall (has_keys ["qty"; "avg_price"]%string) equities →
  mapM investment equities
  = Ok (map (λ d, field "qty" d * field "avg_price" d) equities).
Proof.
  intros Hk. apply mapM_Ok. eapply Forall_impl; [exact Hk|].
  intros d Hd. apply investment_field, Hd.
Qed.

Lemma weight_field (equities : list (gmap string Q)) (d : gmap string Q) :
  has_keys ["qty"; "avg_price"]%string d →
  ¬ total_investment equities == 0 →
  weight (total_investment equities) d = Ok (weight_of equities d).
Proof.
  intros Hk Ht. unfold weight. rewrite investment_field by exact Hk.
  cbn. rewrite truediv_nonzero by exact Ht. reflexivity.
Qed.

Lemma weight_zero_total (total : Q) (d : gmap string Q) :
  has_keys ["qty"; "avg_price"]%string d →
  total == 0 →
  weight total d = Raise ZeroDivisionError.
Proof.
  intros Hk Ht. unfold weight. rewrite investment_field by exact Hk.
  cbn. apply truediv_zero, Ht.
Qed.

Lemma beta_term_zero_total (total : Q) (d : gmap string Q) :
  has_keys ["qty"; "avg_price"]%string d →
  total == 0 →
  beta_term total d = Raise ZeroDivisionError.
Proof.
  intros Hk Ht. unfold beta_term.
  rewrite (weight_zero_total total d Hk Ht). reflexivity.
Qed.

Lemma has_metric_keys_value (d : gmap string Q) :
  has_keys metric_keys d → has_keys ["qty"; "avg_price"]%string d.
Proof.
  unfold has_keys, metric_keys. rewrite !Forall_forall.
  intros H key Hkey. apply H.
  rewrite !elem_of_cons in Hkey. rewrite !elem_of_cons. tauto.
Qed.

(** On a portfolio with every key and a nonzero total investment, the
    calculator reduces to its formulas: only the last division can fail. *)
Lemma calculate_portfolio_metrics_formulas (equities : list (gmap string Q))
    (benchmark_return risk_free_rate : Q) :
  Forall (has_keys metric_keys) equities →
  ¬ total_investment equities == 0 →
  calculate_portfolio_metrics equities benchmark_return risk_free_rate
  = (sharpe_ratio ←
       truediv (portfolio_return equities - risk_free_rate)
               (portfolio_std_dev equities benchmark_return risk_free_rate);
     mret (portfolio_beta equities,
           portfolio_return equities - risk_free_rate
           - portfolio_beta equities * (benchmark_return - risk_free_rate),
           sharpe_ratio)).
Proof.
  intros Hk Ht. unfold calculate_portfolio_metrics.
  rewrite investments_fields
    by (eapply Forall_impl; [exact Hk|apply has_metric_keys_value]).
  cbn [mbind result_bind]. fold (total_investment equities).
  rewrite (mapM_Ok (beta_term (total_investment equities))
             (λ d, weight_of equities d * field "beta" d)); cycle 1.
  { eapply Forall_impl; [exact Hk|]. intros d Hd. unfold beta_term.
    rewrite weight_field by (auto using has_metric_keys_value). cbn.
    rewrite getitem_field by (eapply has_keys_lookup; [exact Hd|set_solver]).
    reflexivity. }
  cbn [mbind result_bind].
  rewrite (mapM_Ok (return_term (total_investment equities))
             (λ d, weight_of equities d * field "return" d)); cycle 1.
  { eapply Forall_impl; [exact Hk|]. intros d Hd. unfold return_term.
    rewrite weight_field by (auto using has_metric_keys_value). cbn.
    rewrite getitem_field by (eapply has_keys_lookup; [exact Hd|set_solver]).
    reflexivity. }
  cbn [mbind result_bind].
  rewrite (mapM_Ok (std_dev_term (total_investment equities)
                                 benchmark_return risk_free_rate)
             (λ d, weight_of equities d * field "beta" d
                   * (benchmark_return - risk_free_rate))); cycle 1.
  { eapply Forall_impl; [exact Hk|]. intros d Hd. unfold std_dev_term.
    rewrite weight_field by (auto using has_metric_keys_value). cbn.
    rewrite getitem_field by (eapply has_keys_lookup; [exact Hd|set_solver]).
    reflexivity. }
  reflexivity.
Qed.

Lemma py_sum_weights (equities : list (gmap string Q)) (total : Q) :
  ¬ total == 0 →
  py_sum (map (λ d, field "qty" d * field "avg_price" d / total) equities)
  == py_sum (map (λ d, field "qty" d * field "avg_price" d) equities) / total.
Proof.
  intros Ht. induction equities as [|d l IH]; cbn [map].
  - rewrite py_sum_nil. field. exact Ht.
  - rewrite !py_sum_cons, IH. field. exact Ht.
Qed.

End MetricsFacts.

(** C4: on the docstring example with benchmark return 0.07 and risk-free
    rate 0.02 the calculator returns the value-weighted beta
    (5000*1.2 + 4500*0.9)/9500, and the alpha and Sharpe ratio that the
    formulas give from that beta and the value-weighted return
    (5000*0.08 + 4500*0.06)/9500. *)
Theorem example_metrics :
  ∃ beta alpha sharpe : Q,
    Stats.calculate_portfolio_metrics example_equities 0.07 0.02
    = Ok (beta, alpha, sharpe) ∧
    (let ret := (5000 * 0.08 + 4500 * 0.06) / 9500 in
     beta == (5000 * 1.2 + 4500 * 0.9) / 9500 ∧
     alpha == ret - 0.02 - beta * (0.07 - 0.02) ∧
     sharpe == (ret - 0.02) / (beta * (0.07 - 0.02)))%Q.
Proof.
  do 3 eexists. split; [vm_compute; reflexivity|].
  cbv zeta. repeat split; vm_compute; reflexivity.
Qed.

(** C5: for a portfolio with nonzero total investment, the denominator the
    calculator divides by for the Sharpe ratio, the sum of
    weight * beta * (benchmark_return - risk_free_rate), equals
    portfolio_beta * (benchmark_return - risk_free_rate), where
    portfolio_beta is the first component of the returned triple. *)
Theorem std_dev_is_beta_times_excess (equities : list (gmap string Q))
    (benchmark_return risk_free_rate : Q) :
  Forall (has_keys metric_keys) equities →
  ¬ total_investment equities == 0 →
  Stats.calculate_portfolio_metrics equities benchmark_return risk_free_rate
  = (sharpe_ratio ←
       truediv (portfolio_return equities - risk_free_rate)%Q
               (portfolio_std_dev equities benchmark_return risk_free_rate);
     mret (portfolio_beta equities,
           (portfolio_return equities - risk_free_rate
            - portfolio_beta equities * (benchmark_return - risk_free_rate))%Q,
           sharpe_ratio)) ∧
  portfolio_std_dev equities benchmark_return risk_free_rate
  == portfolio_beta equities * (benchmark_return - risk_free_rate).
Proof.
  intros Hk Ht. split.
  - apply calculate_portfolio_metrics_formulas; assumption.
  - unfold portfolio_std_dev, portfolio_beta.
    rewrite <- py_sum_scale, map_map. reflexivity.
Qed.

Lemma example_has_metric_keys : Forall (has_keys metric_keys) example_equities.
Proof.
  repeat constructor; vm_compute; eexists; reflexivity.
Defined.

Lemma std_dev_is_beta_times_excess_witness :
  portfolio_std_dev example_equities 0.07 0.02
  == portfolio_beta example_equities * (0.07 - 0.02).
Proof.
  apply (std_dev_is_beta_times_excess example_equities 0.07 0.02).
  - exact example_has_metric_keys.
  - vm_compute. discriminate.
Defined.

(** C7: when the total investment, the sum of qty * avg_price, is zero the
    calculator fails with a DomainError (the division by zero); when it is
    not zero the weights it computes are qty * avg_price / total_investment,
    and they sum to 1. *)
Theorem zero_investment_fails_and_weights_sum_to_one
    (equities : list (gmap string Q)) (benchmark_return risk_free_rate : Q) :
  Forall (has_keys ["qty"; "avg_price"]) equities →
  mapM Stats.investment equities
  = Ok (map (λ d, field "qty" d * field "avg_price" d)%Q equities) ∧
  (total_investment equities == 0 →
   ∃ e, kind_of e = Some DomainError ∧
        Stats.calculate_portfolio_metrics equities benchmark_return
                                          risk_free_rate
        = Raise e) ∧
  (¬ total_investment equities == 0 →
   mapM (Stats.weight (total_investment equities)) equities
   = Ok (map (weight_of equities) equities) ∧
   py_sum (map (weight_of equities) equities) == 1).
Proof.
  intros Hk. split; [apply investments_fields, Hk|]. split.
  - intros Ht. exists ZeroDivisionError. split; [reflexivity|].
    unfold Stats.calculate_portfolio_metrics.
    rewrite investments_fields by exact Hk.
    cbn [mbind result_bind]. fold (total_investment equities).
    destruct equities as [|d rest].
    + cbn [mapM mret result_ret mbind result_bind].
      rewrite truediv_zero by reflexivity. reflexivity.
    + inversion Hk as [|? ? Hd _]; subst.
      rewrite (mapM_cons (Stats.beta_term _)).
      rewrite (beta_term_zero_total _ d Hd Ht). reflexivity.
  - intros Ht. split.
    + apply mapM_Ok. eapply Forall_impl; [exact Hk|].
      intros d Hd. apply weight_field; assumption.
    + unfold weight_of at 1.
      rewrite (py_sum_weights equities (total_investment equities) Ht).
      fold (total_investment equities). field. exact Ht.
Qed.

Lemma zero_investment_fails_and_weights_sum_to_one_witness :
  (∃ e, kind_of e = Some DomainError ∧
        Stats.calculate_portfolio_metrics
          [list_to_map [("beta", 1.2%Q); ("qty", 0%Q); ("avg_price", 50%Q);
                        ("return", 0.08%Q)]] 0.07 0.02
        = Raise e) ∧
  py_sum (map (weight_of example_equities) example_equities) == 1.
Proof.
  split.
  - apply zero_investment_fails_and_weights_sum_to_one.
    + repeat constructor; vm_compute; eexists; reflexivity.
    + vm_compute. reflexivity.
  - apply (zero_investment_fails_and_weights_sum_to_one example_equities 0 0).
    + repeat constructor; vm_compute; eexists; reflexivity.
    + vm_compute. discriminate.
Defined.

(** ** Facts about the rebalancers *)

Section RebalanceFacts.

Local Open Scope Q_scope.

Import Rebalance.

Lemma getitem_inv (d : gmap string Q) (key : string) (v : Q) :
  getitem d key = Ok v → v = field key d ∧ is_Some (d !! key).
Proof.
  unfold getitem, field. destruct (d !! key) as [w|]; [|discriminate].
  intros [= <-]. split; [reflexivity|eauto].
Qed.

Lemma mapM_Ok_inv {A B : Type} (f : A → result B) (g : A → B) (P : A → Prop)
    (l : list A) (r : list B) :
  (∀ a b, f a = Ok b → b = g a ∧ P a) →
  mapM f l = Ok r → r = map g l ∧ Forall P l.
Proof.
  intros Hf. revert r. induction l as [|a l IH]; intros r.
  - intros [= <-]. split; constructor.
  - rewrite mapM_cons. destruct (f a) as [b|e] eqn:Ea; [|discriminate].
    cbn [mbind result_bind].
    destruct (mapM f l) as [r'|e] eqn:El; [|discriminate].
    intros [= <-]. destruct (Hf a b Ea) as [-> Ha].
    destruct (IH r' eq_refl) as [-> Hl]. split; [reflexivity|].
    constructor; assumption.
Qed.

Lemma getitems_fields (key : string) (l : list (gmap string Q)) :
  Forall (λ d, is_Some (d !! key)) l →
  mapM (λ d, getitem d key) l = Ok (map (field key) l).
Proof.
  intros Hl. apply mapM_Ok. eapply Forall_impl; [exact Hl|].
  intros d Hd. apply getitem_field, Hd.
Qed.

Lemma budget_term_field (d : gmap string Q) :
  has_keys ["avg_price"; "qty"]%string d →
  budget_term d = Ok (field "avg_price" d * field "qty" d).
Proof.
  intros Hk. unfold budget_term.
  rewrite !getitem_field
    by (eapply has_keys_lookup; [exact Hk|rewrite !elem_of_cons; tauto]).
  reflexivity.
Qed.

Lemma budget_term_inv (d : gmap string Q) (v : Q) :
  budget_term d = Ok v →
  v = field "avg_price" d * field "qty" d ∧
  has_keys ["avg_price"; "qty"]%string d.
Proof.
  unfold budget_term.
  destruct (getitem d "avg_price") as [p|] eqn:Ep; [|discriminate].
  destruct (getitem d "qty") as [q|] eqn:Eq; [|discriminate].
  intros [= <-].
  destruct (getitem_inv _ _ _ Ep) as [-> Hp].
  destruct (getitem_inv _ _ _ Eq) as [-> Hq].
  split; [reflexivity|]. repeat constructor; assumption.
Qed.

(** The problem both scripts build around an objective vector [c]. *)
Lemma formulate_Ok (coefficient : gmap string Q → result Q)
    (equities : list (gmap string Q)) (c : list Q) :
  mapM coefficient equities = Ok c →
  Forall (has_keys ["avg_price"; "qty"]%string) equities →
  formulate coefficient equities
  = Ok {| lp_c := c;
          lp_A_eq := [map (field "avg_price") equities];
          lp_b_eq := [portfolio_value equities];
          lp_bounds := map (λ _, (0, None)) equities |}.
Proof.
  intros Hc Hk. unfold formulate. rewrite Hc. cbn [mbind result_bind].
  rewrite getitems_fields; cycle 1.
  { eapply Forall_impl; [exact Hk|]. intros d Hd.
    eapply has_keys_lookup; [exact Hd|rewrite !elem_of_cons; tauto]. }
  cbn [mbind result_bind].
  rewrite (mapM_Ok budget_term (λ d, field "avg_price" d * field "qty" d));
    cycle 1.
  { eapply Forall_impl; [exact Hk|]. intros d Hd.
    apply budget_term_field, Hd. }
  reflexivity.
Qed.

Lemma formulate_Ok_inv (coefficient : gmap string Q → result Q)
    (equities : list (gmap string Q)) (problem : lp) :
  formulate coefficient equities = Ok problem →
  mapM coefficient equities = Ok (lp_c problem) ∧
  Forall (has_keys ["avg_price"; "qty"]%string) equities ∧
  lp_A_eq problem = [map (field "avg_price") equities] ∧
  lp_b_eq problem = [portfolio_value equities] ∧
  lp_bounds problem = map (λ _, (0, None)) equities.
Proof.
  unfold formulate.
  destruct (mapM coefficient equities) as [c|] eqn:Ec; [|discriminate].
  cbn [mbind result_bind].
  destruct (mapM (λ equity, getitem equity "avg_price") equities)
    as [row|] eqn:Er; [|discriminate].
  cbn [mbind result_bind].
  destruct (mapM budget_term equities) as [terms|] eqn:Et; [|discriminate].
  intros [= <-]. cbn.
  destruct (mapM_Ok_inv _ _ _ _ _
              (λ d v, getitem_inv d "avg_price"%string v) Er) as [-> _].
  destruct (mapM_Ok_inv _ _ _ _ _ budget_term_inv Et) as [-> Hk].
  repeat split; auto.
Qed.

Lemma rebalance_Linprog_inv (coefficient : gmap string Q → result Q)
    (equities : list (gmap string Q)) (problem : lp) (k : reply → outcome) :
  rebalance coefficient equities = Linprog problem k →
  formulate coefficient equities = Ok problem ∧
  k = (λ r, match r with
            | Throws e => Failed e equities
            | Result res => assign_qty (res_x res) 0 equities
            end).
Proof.
  unfold rebalance.
  destruct (formulate coefficient equities) as [lp0|]; [|discriminate].
  intros [= <- <-]. split; reflexivity.
Qed.

Lemma optimizers_rebalance (equities : list (gmap string Q)) (p : call) :
  optimizers equities p →
  ∃ coefficient, p = rebalance coefficient equities.
Proof.
  intros [->|(b & rf & ->)]; eexists; reflexivity.
Qed.

Lemma assign_qty_Some (xs : list Q) (equities : list (gmap string Q)) (i : nat) :
  (i + length equities ≤ length xs)%nat →
  assign_qty (Some xs) i equities
  = Returned (with_rounded_qty equities (drop i xs)).
Proof.
  revert i. induction equities as [|d rest IH]; intros i Hlen.
  - reflexivity.
  - cbn [assign_qty subscript]. cbn [length] in Hlen.
    destruct (xs !! i) as [v|] eqn:Ev.
    + rewrite IH by lia. rewrite (drop_S _ _ _ Ev). reflexivity.
    + apply lookup_ge_None in Ev. lia.
Qed.

Lemma assign_qty_None (equities : list (gmap string Q)) (i : nat) :
  equities ≠ [] → assign_qty None i equities = Failed TypeError equities.
Proof.
  destruct equities; [congruence|reflexivity].
Qed.

End RebalanceFacts.

Section ObjectiveFacts.

Local Open Scope Q_scope.

Import BalanceRatio.

Lemma sharpe_coefficient_field (benchmark_return risk_free_rate : Q)
    (d : gmap string Q) :
  has_keys ["return"; "beta"]%string d →
  ¬ field "beta" d == 0 →
  ¬ benchmark_return == risk_free_rate →
  sharpe_coefficient benchmark_return risk_free_rate d
  = Ok (- ((field "return" d - risk_free_rate)
           / (field "beta" d * (benchmark_return - risk_free_rate)))).
Proof.
  intros Hk Hbeta Hrate. unfold sharpe_coefficient.
  rewrite !getitem_field
    by (eapply has_keys_lookup; [exact Hk|rewrite !elem_of_cons; tauto]).
  cbn [mbind result_bind]. rewrite truediv_nonzero; [reflexivity|].
  intros Hz. apply Qmult_integral in Hz. destruct Hz as [Hz|Hz].
  - contradiction.
  - apply Hrate. lra.
Qed.

Lemma sharpe_coefficient_zero (benchmark_return risk_free_rate : Q)
    (d : gmap string Q) :
  has_keys ["return"; "beta"]%string d →
  field "beta" d == 0 ∨ benchmark_return == risk_free_rate →
  sharpe_coefficient benchmark_return risk_free_rate d
  = Raise ZeroDivisionError.
Proof.
  intros Hk Hz. unfold sharpe_coefficient.
  rewrite !getitem_field
    by (eapply has_keys_lookup; [exact Hk|rewrite !elem_of_cons; tauto]).
  cbn [mbind result_bind]. rewrite truediv_zero; [reflexivity|].
  destruct Hz as [Hz|Hz]; rewrite Hz; ring.
Qed.

(** With both keys present the coefficient either evaluates or divides by
    zero. *)
Lemma sharpe_coefficient_cases (benchmark_return risk_free_rate : Q)
    (d : gmap string Q) :
  has_keys ["return"; "beta"]%string d →
  (∃ v, sharpe_coefficient benchmark_return risk_free_rate d = Ok v) ∨
  sharpe_coefficient benchmark_return risk_free_rate d
  = Raise ZeroDivisionError.
Proof.
  intros Hk. unfold sharpe_coefficient.
  rewrite !getitem_field
    by (eapply has_keys_lookup; [exact Hk|rewrite !elem_of_cons; tauto]).
  cbn [mbind result_bind]. unfold truediv.
  destruct (Qeq_bool _ 0); [right|left; eexists]; reflexivity.
Qed.

Lemma has_keys_weaken (keys keys' : list string) (d : gmap string Q) :
  keys' ⊆ keys → has_keys keys d → has_keys keys' d.
Proof.
  unfold has_keys. rewrite !Forall_forall. intros Hsub H key Hkey.
  apply H, Hsub, Hkey.
Qed.

Lemma min_beta_reaches_solver (equities : list (gmap string Q)) :
  Forall (has_keys ["beta"; "qty"; "avg_price"]%string) equities →
  ∃ k, MinBeta.minimize_portfolio_beta equities
       = Linprog {| lp_c := map (field "beta") equities;
                    lp_A_eq := [map (field "avg_price") equities];
                    lp_b_eq := [portfolio_value equities];
                    lp_bounds := map (λ _, (0, None)) equities |} k.
Proof.
  intros Hk. unfold MinBeta.minimize_portfolio_beta, Rebalance.rebalance.
  erewrite formulate_Ok; [eexists; reflexivity| |].
  - apply getitems_fields. eapply Forall_impl; [exact Hk|]. intros d Hd.
    eapply has_keys_lookup; [exact Hd|rewrite !elem_of_cons; tauto].
  - eapply Forall_impl; [exact Hk|]. intros d.
    apply has_keys_weaken. intros key. rewrite !elem_of_cons. tauto.
Qed.

Lemma sharpe_reaches_solver (equities : list (gmap string Q))
    (benchmark_return risk_free_rate : Q) :
  Forall (has_keys metric_keys) equities →
  Forall (λ d, ¬ field "beta" d == 0) equities →
  ¬ benchmark_return == risk_free_rate →
  ∃ k, maximize_sharpe_ratio equities benchmark_return risk_free_rate
       = Linprog
           {| lp_c :=
                map (λ d, - ((field "return" d - risk_free_rate)
                             / (field "beta" d
                                * (benchmark_return - risk_free_rate))))
                    equities;
              lp_A_eq := [map (field "avg_price") equities];
              lp_b_eq := [portfolio_value equities];
              lp_bounds := map (λ _, (0, None)) equities |} k.
Proof.
  intros Hk Hbeta Hrate. unfold maximize_sharpe_ratio, Rebalance.rebalance.
  erewrite formulate_Ok; [eexists; reflexivity| |].
  - apply mapM_Ok. rewrite Forall_forall in *. intros d Hd.
    apply sharpe_coefficient_field; auto.
    eapply has_keys_weaken; [|apply Hk, Hd].
    intros key. unfold metric_keys. rewrite !elem_of_cons. tauto.
  - eapply Forall_impl; [exact Hk|]. intros d.
    apply has_keys_weaken. intros key. unfold metric_keys.
    rewrite !elem_of_cons. tauto.
Qed.

End ObjectiveFacts.

(** ** The claims about the problem handed to the solver *)

(** C1: the beta-minimizing optimizer hands the solver the objective vector
    whose i-th coefficient is beta[i]; when every beta[i] is nonzero and
    benchmark_return differs from risk_free_rate, the Sharpe-maximizing
    optimizer hands the solver the objective vector whose i-th coefficient is
    -((return[i] - risk_free_rate)
      / (beta[i] * (benchmark_return - risk_free_rate))). *)
Theorem objective_vectors (equities : list (gmap string Q))
    (benchmark_return risk_free_rate : Q) :
  Forall (has_keys ["beta"; "qty"; "avg_price"]) equities →
  (∃ problem k,
     MinBeta.minimize_portfolio_beta equities = Linprog problem k ∧
     lp_c problem = map (field "beta") equities) ∧
  (Forall (λ d, is_Some (d !! "return")) equities →
   Forall (λ d, ¬ field "beta" d == 0) equities →
   ¬ benchmark_return == risk_free_rate →
   ∃ problem k,
     BalanceRatio.maximize_sharpe_ratio equities benchmark_return
                                        risk_free_rate
     = Linprog problem k ∧
     lp_c problem
     = map (λ d, - ((field "return" d - risk_free_rate)
                    / (field "beta" d
                       * (benchmark_return - risk_free_rate))))%Q
           equities).
Proof.
  intros Hk. split.
  - destruct (min_beta_reaches_solver equities Hk) as [k Hp].
    eexists _, k. split; [exact Hp|reflexivity].
  - intros Hret Hbeta Hrate.
    destruct (sharpe_reaches_solver equities benchmark_return risk_free_rate)
      as [k Hp]; [|assumption|assumption|].
    + rewrite Forall_forall in *. intros d Hd.
      specialize (Hk d Hd). specialize (Hret d Hd).
      unfold has_keys, metric_keys in *. rewrite Forall_forall in *.
      intros key. rewrite !elem_of_cons. intros Hkey.
      destruct (decide (key = "return")) as [->|Hne]; [exact Hret|].
      apply Hk. rewrite !elem_of_cons. tauto.
    + eexists _, k. split; [exact Hp|reflexivity].
Qed.

Lemma objective_vectors_witness :
  (∃ problem k,
     MinBeta.minimize_portfolio_beta example_equities = Linprog problem k ∧
     lp_c problem = map (field "beta") example_equities) ∧
  (∃ problem k,
     BalanceRatio.maximize_sharpe_ratio example_equities 0.07 0.02
     = Linprog problem k ∧
     lp_c problem
     = map (λ d, - ((field "return" d - 0.02)
                    / (field "beta" d * (0.07 - 0.02))))%Q
           example_equities).
Proof.
  assert (Hk : Forall (has_keys ["beta"; "qty"; "avg_price"]) example_equities)
    by (repeat constructor; vm_compute; eexists; reflexivity).
  split.
  - apply (objective_vectors example_equities 0 0 Hk).
  - apply (objective_vectors example_equities 0.07 0.02 Hk).
    + repeat constructor; vm_compute; eexists; reflexivity.
    + repeat constructor; vm_compute; discriminate.
    + vm_compute. discriminate.
Defined.

(** C2: whenever either optimizer hands a problem to the solver, the problem
    has exactly one equality constraint, whose row is the avg_price of each
    equity and whose right-hand side is the sum of avg_price * qty over the
    input quantities, and the bound pair (0, None) for every variable; and
    each optimizer does hand the solver a problem once its objective vector
    can be computed. *)
Theorem budget_constraint_and_bounds (equities : list (gmap string Q))
    (benchmark_return risk_free_rate : Q) :
  (∀ p problem k,
     optimizers equities p → p = Linprog problem k →
     lp_A_eq problem = [map (field "avg_price") equities] ∧
     lp_b_eq problem = [portfolio_value equities] ∧
     lp_bounds problem = map (λ _, (0%Q, None)) equities) ∧
  (Forall (has_keys ["beta"; "qty"; "avg_price"]) equities →
   ∃ problem k,
     MinBeta.minimize_portfolio_beta equities = Linprog problem k) ∧
  (Forall (has_keys metric_keys) equities →
   Forall (λ d, ¬ field "beta" d == 0) equities →
   ¬ benchmark_return == risk_free_rate →
   ∃ problem k,
     BalanceRatio.maximize_sharpe_ratio equities benchmark_return
                                        risk_free_rate
     = Linprog problem k).
Proof.
  split; [|split].
  - intros p problem k Hp Hcall.
    destruct (optimizers_rebalance _ _ Hp) as [coefficient ->].
    apply rebalance_Linprog_inv in Hcall. destruct Hcall as [Hf _].
    apply formulate_Ok_inv in Hf. tauto.
  - intros Hk. destruct (min_beta_reaches_solver equities Hk) as [k Hp].
    eauto.
  - intros Hk Hbeta Hrate.
    destruct (sharpe_reaches_solver equities benchmark_return risk_free_rate
                Hk Hbeta Hrate) as [k Hp].
    eauto.
Qed.

Lemma budget_constraint_and_bounds_witness :
  ∃ problem k,
    BalanceRatio.maximize_sharpe_ratio example_equities 0.07 0.02
    = Linprog problem k ∧
    lp_A_eq problem = [[50; 30]%Q] ∧
    lp_b_eq problem = [portfolio_value example_equities] ∧
    lp_bounds problem = [(0%Q, None); (0%Q, None)].
Proof.
  destruct (budget_constraint_and_bounds example_equities 0.07 0.02)
    as (Hshape & _ & Hreach).
  destruct Hreach as (problem & k & Hp).
  - exact example_has_metric_keys.
  - repeat constructor; vm_compute; discriminate.
  - vm_compute. discriminate.
  - exists problem, k. split; [exact Hp|].
    destruct (Hshape _ problem k
                (or_intror (ex_intro _ _ (ex_intro _ _ eq_refl))) Hp)
      as (HA & Hb & Hbd).
    rewrite HA, Hb, Hbd. repeat split.
Defined.

(** C6: when some equity has beta equal to 0 or benchmark_return equal to
    risk_free_rate, the Sharpe-maximizing optimizer fails with a DomainError
    (the division by zero) while it builds the objective vector: the solver
    is not invoked, nothing is returned and no quantity is changed. *)
Theorem sharpe_zero_denominator_fails (equities : list (gmap string Q))
    (benchmark_return risk_free_rate : Q) :
  Forall (has_keys ["return"; "beta"]) equities →
  Exists (λ d, field "beta" d == 0 ∨ benchmark_return == risk_free_rate)
         equities →
  ∃ e, kind_of e = Some DomainError ∧
       BalanceRatio.maximize_sharpe_ratio equities benchmark_return
                                          risk_free_rate
       = Done (Failed e equities) ∧
       ∀ linprog,
         run linprog (BalanceRatio.maximize_sharpe_ratio
                        equities benchmark_return risk_free_rate)
         = Failed e equities.
Proof.
  intros Hk Hz. exists ZeroDivisionError. split; [reflexivity|].
  assert (Hp : BalanceRatio.maximize_sharpe_ratio equities benchmark_return
                 risk_free_rate
               = Done (Failed ZeroDivisionError equities)).
  { unfold BalanceRatio.maximize_sharpe_ratio, Rebalance.rebalance,
      Rebalance.formulate.
    rewrite (mapM_Raise (BalanceRatio.sharpe_coefficient benchmark_return
                                                         risk_free_rate)
                        ZeroDivisionError); [reflexivity| |].
    - eapply Forall_impl; [exact Hk|]. intros d Hd.
      apply sharpe_coefficient_cases, Hd.
    - rewrite Forall_forall in Hk. rewrite Exists_exists in *.
      destruct Hz as (d & Hd & Hzero). exists d. split; [exact Hd|].
      apply sharpe_coefficient_zero; auto. }
  split; [exact Hp|]. intros linprog. rewrite Hp. reflexivity.
Qed.

Lemma sharpe_zero_denominator_fails_witness :
  ∃ e, kind_of e = Some DomainError ∧
       BalanceRatio.maximize_sharpe_ratio example_equities 0.02 0.02
       = Done (Failed e example_equities) ∧
       ∀ linprog,
         run linprog (BalanceRatio.maximize_sharpe_ratio
                        example_equities 0.02 0.02)
         = Failed e example_equities.
Proof.
  apply (sharpe_zero_denominator_fails example_equities 0.02 0.02).
  - repeat constructor; vm_compute; eexists; reflexivity.
  - apply Exists_cons_hd. right. reflexivity.
Defined.

(** ** Facts about rounding and the value of a portfolio *)

Section ConservationFacts.

Local Open Scope Q_scope.

Lemma py_round_comp (x y : Q) : x == y → py_round x = py_round y.
Proof.
  intros Hxy. unfold py_round.
  rewrite (Qfloor_comp x y Hxy).
  assert (Hc : (x - inject_Z (Qfloor y) ?= 1 # 2)
               = (y - inject_Z (Qfloor y) ?= 1 # 2)).
  { apply Qcompare_comp; [rewrite Hxy|]; reflexivity. }
  rewrite Hc. reflexivity.
Qed.

(** Rounding moves a number by at most one half. *)
Lemma py_round_error (x : Q) :
  - (1 # 2) <= inject_Z (py_round x) - x <= 1 # 2.
Proof.
  pose proof (Qfloor_le x) as Hlo. pose proof (Qlt_floor x) as Hhi.
  rewrite inject_Z_plus in Hhi. change (inject_Z 1) with 1 in Hhi.
  unfold py_round.
  destruct (Qcompare_spec (x - inject_Z (Qfloor x)) (1 # 2)) as [He|Hl|Hg].
  - destruct (Z.even (Qfloor x)).
    + split; lra.
    + rewrite inject_Z_plus. change (inject_Z 1) with 1. split; lra.
  - split; lra.
  - rewrite inject_Z_plus. change (inject_Z 1) with 1. split; lra.
Qed.

Lemma py_sum_dot {A : Type} (f g : A → Q) (l : list A) :
  py_sum (map (λ a, f a * g a) l) == dot (map f l) (map g l).
Proof.
  induction l as [|a l IH]; cbn [map dot].
  - reflexivity.
  - rewrite py_sum_cons, IH. reflexivity.
Qed.

Lemma field_insert_eq (key : string) (v : Q) (d : gmap string Q) :
  field key (<[key := v]> d) = v.
Proof.
  unfold field. rewrite lookup_insert_eq. reflexivity.
Qed.

Lemma field_insert_ne (key key' : string) (v : Q) (d : gmap string Q) :
  key ≠ key' → field key' (<[key := v]> d) = field key' d.
Proof.
  intros Hne. unfold field. rewrite lookup_insert_ne by exact Hne.
  reflexivity.
Qed.

Lemma portfolio_value_with_rounded_qty (equities : list (gmap string Q))
    (xs : list Q) :
  length xs = length equities →
  portfolio_value (with_rounded_qty equities xs)
  == dot (map (field "avg_price") equities)
         (map (λ v, inject_Z (py_round v)) xs).
Proof.
  unfold portfolio_value. rewrite py_sum_dot. revert xs.
  induction equities as [|d rest IH]; intros [|x xs] Hlen;
    try discriminate; [reflexivity|].
  cbn [with_rounded_qty zip_with map dot].
  rewrite field_insert_eq, field_insert_ne by discriminate.
  fold (with_rounded_qty rest xs).
  rewrite IH by (cbn in Hlen; congruence). reflexivity.
Qed.

Lemma inject_Z_S (n : nat) :
  inject_Z (Z.of_nat (S n)) == inject_Z (Z.of_nat n) + 1.
Proof.
  rewrite Nat2Z.inj_succ, <- Z.add_1_r, inject_Z_plus. reflexivity.
Qed.

(** Replacing each [x] by its rounding moves a dot product with
    coefficients in [0, M] by at most M/2 per coefficient. *)
Lemma dot_rounding_bound (M : Q) (ps xs : list Q) :
  length xs = length ps →
  Forall (λ p, 0 <= p <= M) ps →
  - ((1 # 2) * M * inject_Z (Z.of_nat (length ps)))
  <= dot ps (map (λ v, inject_Z (py_round v)) xs) - dot ps xs
  <= (1 # 2) * M * inject_Z (Z.of_nat (length ps)).
Proof.
  revert xs. induction ps as [|p ps IH]; intros [|x xs] Hlen Hps;
    try discriminate.
  - cbn [length map dot]. change (inject_Z (Z.of_nat 0)) with 0.
    split; lra.
  - inversion Hps as [|? ? [Hp0 HpM] Hps']; subst.
    cbn [length] in *. rewrite inject_Z_S. cbn [map dot].
    specialize (IH xs ltac:(congruence) Hps').
    pose proof (py_round_error x) as [Hlo Hhi].
    set (r := inject_Z (py_round x)) in *.
    set (n := inject_Z (Z.of_nat (length ps))) in *.
    set (D := dot ps (map (λ v, inject_Z (py_round v)) xs)) in *.
    set (D0 := dot ps xs) in *.
    assert (H1 : p * (r - x) <= (1 # 2) * M) by nra.
    assert (H2 : - ((1 # 2) * M) <= p * (r - x)) by nra.
    split; lra.
Qed.

Lemma max_avg_price_bound (equities : list (gmap string Q)) :
  Forall (λ d, 0 <= field "avg_price" d) equities →
  Forall (λ p, 0 <= p <= max_avg_price equities)
         (map (field "avg_price") equities).
Proof.
  unfold max_avg_price. induction 1 as [|d rest Hd _ IH]; cbn [map foldr].
  - constructor.
  - constructor.
    + split; [exact Hd|apply Q.le_max_l].
    + eapply Forall_impl; [exact IH|]. cbn. intros p [Hp0 Hp].
      split; [exact Hp0|].
      eapply Qle_trans; [exact Hp|apply Q.le_max_r].
Qed.

(** What a successful run leaves behind. *)
Lemma run_succeeds (equities : list (gmap string Q)) (p : call)
    (linprog : lp → reply) (xs : list Q) :
  optimizers equities p →
  succeeds linprog p xs →
  run linprog p = Returned (with_rounded_qty equities xs) ∧
  length xs = length equities ∧
  dot (map (field "avg_price") equities) xs == portfolio_value equities.
Proof.
  intros Hp (problem & k & -> & res & Hres & Hx & Hlen & Heq & _).
  destruct (optimizers_rebalance _ _ Hp) as [coefficient Hreb].
  symmetry in Hreb. apply rebalance_Linprog_inv in Hreb.
  destruct Hreb as [Hf ->]. apply formulate_Ok_inv in Hf.
  destruct Hf as (Hc & _ & HA & Hb & _).
  apply mapM_length in Hc. rewrite Hc in Hlen.
  rewrite HA, Hb in Heq.
  inversion Heq as [|? ? ? ? Hrow _]; subst.
  split; [|split; assumption].
  cbn [run]. rewrite Hres, Hx.
  rewrite assign_qty_Some by (cbn; lia). reflexivity.
Qed.

End ConservationFacts.

(** ** The claims about the quantities written back *)

(** C3: when an optimizer succeeds on a portfolio whose prices are not
    negative, the solver's unrounded solution has exactly the value the
    portfolio had before, and the value computed with the rounded quantities
    written back differs from it by at most 0.5 * max(avg_price) * n. *)
Theorem value_conservation (equities : list (gmap string Q)) (p : call)
    (linprog : lp → reply) (xs : list Q) :
  optimizers equities p →
  Forall (λ d, 0 <= field "avg_price" d)%Q equities →
  succeeds linprog p xs →
  dot (map (field "avg_price") equities) xs == portfolio_value equities ∧
  run linprog p = Returned (with_rounded_qty equities xs) ∧
  (Qabs (portfolio_value (with_rounded_qty equities xs)
         - portfolio_value equities)
   <= (1 # 2) * max_avg_price equities
      * inject_Z (Z.of_nat (length equities)))%Q.
Proof.
  intros Hp Hprice Hs.
  destruct (run_succeeds equities p linprog xs Hp Hs) as (Hrun & Hlen & Hdot).
  split; [exact Hdot|]. split; [exact Hrun|].
  apply Qabs_Qle_condition.
  rewrite (portfolio_value_with_rounded_qty equities xs Hlen), <- Hdot.
  pose proof (dot_rounding_bound (max_avg_price equities)
                (map (field "avg_price") equities) xs) as Hb.
  rewrite length_map in Hb.
  apply Hb; [exact Hlen|]. apply max_avg_price_bound, Hprice.
Qed.

Lemma min_beta_example_succeeds :
  succeeds all_in_first (MinBeta.minimize_portfolio_beta min_beta_example)
           [190%Q; 0%Q].
Proof.
  destruct (min_beta_reaches_solver min_beta_example) as [k Hk].
  { repeat constructor; vm_compute; eexists; reflexivity. }
  eexists _, k. split; [exact Hk|].
  eexists. split; [reflexivity|]. split; [reflexivity|].
  split; [reflexivity|]. split.
  - constructor; [vm_compute; reflexivity|constructor].
  - repeat constructor; vm_compute; discriminate.
Defined.

Lemma value_conservation_witness :
  (Qabs (portfolio_value (with_rounded_qty min_beta_example [190; 0])
         - portfolio_value min_beta_example)
   <= (1 # 2) * max_avg_price min_beta_example * inject_Z 2)%Q.
Proof.
  apply (value_conservation min_beta_example
           (MinBeta.minimize_portfolio_beta min_beta_example)
           all_in_first [190%Q; 0%Q]).
  - left. reflexivity.
  - repeat constructor; vm_compute; discriminate.
  - exact min_beta_example_succeeds.
Defined.

(** With one equity and a positive price the budget constraint has one
    solution, the quantity the equity had. *)
Lemma single_equity_run (d : gmap string Q) (p : call)
    (linprog : lp → reply) (xs : list Q) :
  optimizers [d] p →
  (0 < field "avg_price" d)%Q →
  succeeds linprog p xs →
  run linprog p
  = Returned [<["qty" := inject_Z (py_round (field "qty" d))]> d].
Proof.
  intros Hp Hprice Hs.
  destruct (run_succeeds [d] p linprog xs Hp Hs) as (Hrun & Hlen & Hdot).
  rewrite Hrun. destruct xs as [|x [|? ?]]; try discriminate.
  cbn [with_rounded_qty zip_with].
  rewrite (py_round_comp x (field "qty" d)); [reflexivity|].
  unfold portfolio_value in Hdot. cbn [map dot] in Hdot.
  rewrite py_sum_cons, py_sum_nil in Hdot.
  apply (Qmult_inj_l _ _ (field "avg_price" d)); lra.
Qed.

(** C9: on a portfolio of exactly one equity with a positive avg_price
    (and, for the Sharpe objective, a nonzero beta and benchmark_return
    different from risk_free_rate) each optimizer reaches the solver, and
    whatever vector the solver answers with that satisfies the constraints,
    the quantity written back is round(qty_before[0]): the equality
    constraint leaves no other solution. *)
Theorem single_equity_no_op (d : gmap string Q)
    (benchmark_return risk_free_rate : Q) :
  has_keys ["beta"; "qty"; "avg_price"] d →
  (0 < field "avg_price" d)%Q →
  (∃ problem k,
     MinBeta.minimize_portfolio_beta [d] = Linprog problem k ∧
     ∀ linprog xs,
       solves linprog problem xs →
       run linprog (MinBeta.minimize_portfolio_beta [d])
       = Returned [<["qty" := inject_Z (py_round (field "qty" d))]> d]) ∧
  (is_Some (d !! "return") →
   ¬ field "beta" d == 0 →
   ¬ benchmark_return == risk_free_rate →
   ∃ problem k,
     BalanceRatio.maximize_sharpe_ratio [d] benchmark_return risk_free_rate
     = Linprog problem k ∧
     ∀ linprog xs,
       solves linprog problem xs →
       run linprog (BalanceRatio.maximize_sharpe_ratio
                      [d] benchmark_return risk_free_rate)
       = Returned [<["qty" := inject_Z (py_round (field "qty" d))]> d]).
Proof.
  intros Hk Hprice. split.
  - destruct (min_beta_reaches_solver [d]) as [k Hp];
      [constructor; [exact Hk|constructor]|].
    eexists _, k. split; [exact Hp|]. intros linprog xs Hs.
    apply (single_equity_run d _ linprog xs); [left; reflexivity|exact Hprice|].
    eexists _, k. split; [exact Hp|exact Hs].
  - intros Hret Hbeta Hrate.
    destruct (sharpe_reaches_solver [d] benchmark_return risk_free_rate)
      as [k Hp].
    + constructor; [|constructor].
      unfold has_keys, metric_keys in *. rewrite Forall_forall in *.
      intros key. rewrite !elem_of_cons. intros Hkey.
      destruct (decide (key = "return")) as [->|Hne]; [exact Hret|].
      apply Hk. rewrite !elem_of_cons. tauto.
    + constructor; [exact Hbeta|constructor].
    + exact Hrate.
    + eexists _, k. split; [exact Hp|]. intros linprog xs Hs.
      apply (single_equity_run d _ linprog xs); [|exact Hprice|].
      * right. exists benchmark_return, risk_free_rate. reflexivity.
      * eexists _, k. split; [exact Hp|exact Hs].
Qed.

Lemma keeps_quantity_solves (problem : lp) :
  lp_c problem = [(- ((0.08 - 0.02) / (1.2 * (0.07 - 0.02))))%Q] →
  lp_A_eq problem = [[50%Q]] →
  lp_b_eq problem = [portfolio_value single_equity] →
  lp_bounds problem = [(0%Q, None)] →
  solves keeps_quantity problem [100%Q].
Proof.
  intros Hc HA Hb Hbd. eexists. split; [reflexivity|].
  split; [reflexivity|]. unfold feasible. rewrite Hc, HA, Hb, Hbd.
  split; [reflexivity|]. split.
  - constructor; [vm_compute; reflexivity|constructor].
  - repeat constructor; vm_compute; discriminate.
Defined.

Lemma single_equity_no_op_witness :
  run keeps_quantity
      (BalanceRatio.maximize_sharpe_ratio single_equity 0.07 0.02)
  = Returned [<["qty" := inject_Z (py_round (field "qty" first_equity))]>
                first_equity].
Proof.
  destruct (single_equity_no_op first_equity 0.07 0.02)
    as (_ & Hsharpe).
  - repeat constructor; vm_compute; eexists; reflexivity.
  - vm_compute. reflexivity.
  - destruct Hsharpe as (problem & k & Hp & Hrun).
    + vm_compute. eexists. reflexivity.
    + vm_compute. discriminate.
    + vm_compute. discriminate.
    + apply (Hrun keeps_quantity [100%Q]).
      destruct (sharpe_reaches_solver single_equity 0.07 0.02) as [k' Hp'].
      * repeat constructor; vm_compute; eexists; reflexivity.
      * repeat constructor; vm_compute; discriminate.
      * vm_compute. discriminate.
      * unfold single_equity in Hp'. rewrite Hp in Hp'.
        injection Hp' as -> _. apply keeps_quantity_solves; reflexivity.
Defined.

(** ** The claims about failure and about the inputs that matter *)

Section WriteBackFacts.

Import Rebalance.

Lemma quantities_agree (l1 l2 : list (gmap string Q)) :
  Forall2 agree_except_return l1 l2 → quantities l1 = quantities l2.
Proof.
  induction 1 as [|d1 d2 l1 l2 (_ & Hq & _) _ IH]; [reflexivity|].
  unfold quantities in *. cbn [map]. rewrite Hq, IH. reflexivity.
Qed.

Lemma exit_of_after_head (d : gmap string Q) (o : outcome) :
  exit_of (after_head d o) = exit_of o.
Proof. destruct o; reflexivity. Qed.

Lemma store_after_head (d : gmap string Q) (o : outcome) :
  store (after_head d o) = d :: store o.
Proof. destruct o; reflexivity. Qed.

(** The write-back loop reads no key of the dicts it updates. *)
Lemma assign_qty_agree (x : option (list Q)) (l1 l2 : list (gmap string Q))
    (i : nat) :
  Forall2 agree_except_return l1 l2 →
  exit_of (assign_qty x i l1) = exit_of (assign_qty x i l2) ∧
  quantities (store (assign_qty x i l1))
  = quantities (store (assign_qty x i l2)).
Proof.
  intros Hl. revert i.
  induction Hl as [|d1 d2 l1 l2 Hd Hl IH]; intros i; [split; reflexivity|].
  cbn [assign_qty]. destruct (subscript x i) as [v|e].
  - rewrite !exit_of_after_head, !store_after_head.
    destruct (IH (S i)) as [He Hq]. split; [exact He|].
    unfold quantities in *. cbn [map].
    rewrite !lookup_insert_eq, Hq. reflexivity.
  - split; [reflexivity|]. cbn [store].
    apply quantities_agree. constructor; assumption.
Qed.

Lemma formulate_agree (l1 l2 : list (gmap string Q)) :
  Forall2 agree_except_return l1 l2 →
  formulate (λ equity, getitem equity "beta") l1
  = formulate (λ equity, getitem equity "beta") l2.
Proof.
  intros Hl. unfold formulate.
  rewrite (mapM_Forall2 (λ equity, getitem equity "beta")
             (λ equity, getitem equity "beta") l1 l2); cycle 1.
  { eapply Forall2_impl; [exact Hl|]. intros d1 d2 (Hb & _ & _).
    unfold getitem. rewrite Hb. reflexivity. }
  rewrite (mapM_Forall2 (λ equity, getitem equity "avg_price")
             (λ equity, getitem equity "avg_price") l1 l2); cycle 1.
  { eapply Forall2_impl; [exact Hl|]. intros d1 d2 (_ & _ & Hp).
    unfold getitem. rewrite Hp. reflexivity. }
  rewrite (mapM_Forall2 budget_term budget_term l1 l2); cycle 1.
  { eapply Forall2_impl; [exact Hl|]. intros d1 d2 (_ & Hq & Hp).
    unfold budget_term, getitem. rewrite Hq, Hp. reflexivity. }
  assert (Hbounds : map (λ _ : gmap string Q, (0%Q, @None Q)) l1
                    = map (λ _ : gmap string Q, (0%Q, @None Q)) l2).
  { clear -Hl. induction Hl; cbn; congruence. }
  rewrite Hbounds. reflexivity.
Qed.

End WriteBackFacts.

(** C8, as the code has it: the optimizers do not look at the status the
    solver reports.  When the solver reports infeasibility or unboundedness
    and its result carries a vector with an entry for every equity, the
    optimizer returns normally with every qty overwritten by round(x[i]),
    as on success; when the result carries no vector and the portfolio is
    not empty, the write-back stops at the first equity with a TypeError
    and the portfolio is left unmodified. *)
Theorem solver_failure_is_not_checked (equities : list (gmap string Q))
    (p : call) (linprog : lp → reply) (problem : lp) (k : reply → outcome)
    (res : OptimizeResult) :
  optimizers equities p →
  p = Linprog problem k →
  linprog problem = Result res →
  res_status res = infeasible_status ∨ res_status res = unbounded_status →
  (∀ xs, res_x res = Some xs → length equities ≤ length xs →
         run linprog p = Returned (with_rounded_qty equities xs)) ∧
  (res_x res = None → equities ≠ [] →
   run linprog p = Failed TypeError equities).
Proof.
  intros Hp Hcall Hres _.
  destruct (optimizers_rebalance _ _ Hp) as [coefficient Hreb].
  assert (Hk : k = (λ r, match r with
                         | Throws e => Failed e equities
                         | Result res => Rebalance.assign_qty (res_x res) 0
                                                              equities
                         end)).
  { rewrite Hreb in Hcall. apply rebalance_Linprog_inv in Hcall.
    apply Hcall. }
  rewrite Hcall, Hk. cbn [run]. rewrite Hres. split.
  - intros xs Hx Hlen. rewrite Hx.
    rewrite assign_qty_Some by (cbn; lia). reflexivity.
  - intros Hx Hne. rewrite Hx. apply assign_qty_None, Hne.
Qed.

Lemma solver_failure_is_not_checked_witness :
  run reports_infeasible (MinBeta.minimize_portfolio_beta short_position)
  = Returned (with_rounded_qty short_position [0%Q]).
Proof.
  destruct (min_beta_reaches_solver short_position) as [k Hk].
  { repeat constructor; vm_compute; eexists; reflexivity. }
  eapply (solver_failure_is_not_checked short_position _ reports_infeasible).
  - left. reflexivity.
  - exact Hk.
  - reflexivity.
  - left. reflexivity.
  - reflexivity.
  - cbn. lia.
Defined.

(** C8, as the claim states it, fails: on a one-equity portfolio whose
    budget is negative no vector is feasible, the solver reports
    infeasibility, and the beta-minimizing optimizer returns normally with
    the quantity changed from -100 to 0. *)
Lemma solver_failure_counterexample :
  (∀ xs, ¬ feasible {| lp_c := map (field "beta") short_position;
                       lp_A_eq := [map (field "avg_price") short_position];
                       lp_b_eq := [portfolio_value short_position];
                       lp_bounds := map (λ _, (0%Q, None)) short_position |}
                    xs) ∧
  (∃ k, MinBeta.minimize_portfolio_beta short_position
        = Linprog {| lp_c := map (field "beta") short_position;
                     lp_A_eq := [map (field "avg_price") short_position];
                     lp_b_eq := [portfolio_value short_position];
                     lp_bounds := map (λ _, (0%Q, None)) short_position |}
                  k) ∧
  (∀ problem, ∃ res, reports_infeasible problem = Result res ∧
                     res_success res = false ∧
                     res_status res = infeasible_status) ∧
  exit_of (run reports_infeasible
               (MinBeta.minimize_portfolio_beta short_position)) = None ∧
  quantities (store (run reports_infeasible
                         (MinBeta.minimize_portfolio_beta short_position)))
  = [Some 0%Q] ∧
  quantities short_position = [Some (-100)%Q] ∧
  (∀ e, run reports_infeasible
            (MinBeta.minimize_portfolio_beta short_position)
        ≠ Failed e short_position).
Proof.
  split; [|split; [|split; [|split; [|split; [|split]]]]].
  - intros xs (Hlen & Heq & Hbd).
    destruct xs as [|x [|? ?]]; try discriminate.
    assert (Hprice : map (field "avg_price") short_position = [50%Q])
      by reflexivity.
    assert (Hvalue : portfolio_value short_position == -5000)
      by (vm_compute; reflexivity).
    cbn [lp_A_eq lp_b_eq lp_bounds] in Heq, Hbd.
    rewrite Hprice in Heq.
    inversion Heq as [|? ? ? ? Hrow _]; subst.
    inversion Hbd as [|? ? ? ? [Hlo _] _]; subst.
    rewrite Hvalue in Hrow. cbn [dot] in Hrow. cbn [fst] in Hlo. lra.
  - apply min_beta_reaches_solver.
    repeat constructor; vm_compute; eexists; reflexivity.
  - intros problem. eexists. repeat split.
  - vm_compute. reflexivity.
  - vm_compute. reflexivity.
  - vm_compute. reflexivity.
  - intros e He. apply (f_equal exit_of) in He. vm_compute in He.
    discriminate.
Qed.

(** C10: the beta-minimizing optimizer does not depend on 'return'.  On two
    portfolios whose equities agree pairwise on 'beta', 'qty' and
    'avg_price', with the same solver, it exits the same way and leaves the
    same quantities, whatever the dicts hold under 'return'. *)
Theorem min_beta_ignores_return (equities1 equities2 : list (gmap string Q))
    (linprog : lp → reply) :
  Forall2 agree_except_return equities1 equities2 →
  exit_of (run linprog (MinBeta.minimize_portfolio_beta equities1))
  = exit_of (run linprog (MinBeta.minimize_portfolio_beta equities2)) ∧
  quantities (store (run linprog (MinBeta.minimize_portfolio_beta equities1)))
  = quantities
      (store (run linprog (MinBeta.minimize_portfolio_beta equities2))).
Proof.
  intros Hl. unfold MinBeta.minimize_portfolio_beta, Rebalance.rebalance.
  rewrite (formulate_agree equities1 equities2 Hl).
  destruct (Rebalance.formulate _ equities2) as [problem|e]; cbn [run].
  - destruct (linprog problem) as [res|e].
    + apply assign_qty_agree, Hl.
    + split; [reflexivity|]. apply quantities_agree, Hl.
  - split; [reflexivity|]. apply quantities_agree, Hl.
Qed.

Lemma min_beta_ignores_return_witness :
  quantities (store (run all_in_first
                         (MinBeta.minimize_portfolio_beta example_equities)))
  = quantities (store (run all_in_first
                           (MinBeta.minimize_portfolio_beta min_beta_example))).
Proof.
  apply (min_beta_ignores_return example_equities min_beta_example
           all_in_first).
  repeat constructor.
Defined.

(** * Further properties of the scripts *)

(** ** More about the metrics calculator *)

Section MetricsInversion.

Local Open Scope Q_scope.

Import Stats.

Lemma mapM_Ok_Forall {A B : Type} (f : A → result B) (P : A → Prop)
    (l : list A) (r : list B) :
  (∀ a b, f a = Ok b → P a) → mapM f l = Ok r → Forall P l.
Proof.
  intros Hf. revert r. induction l as [|a l IH]; intros r; [constructor|].
  rewrite mapM_cons. destruct (f a) as [b|e] eqn:Ea; [|discriminate].
  cbn [mbind result_bind].
  destruct (mapM f l) as [r'|e] eqn:El; [|discriminate].
  intros _. constructor; [eapply Hf, Ea|eapply IH; reflexivity].
Qed.

Lemma truediv_Ok_inv (a b v : Q) :
  truediv a b = Ok v → ¬ b == 0 ∧ v = a / b.
Proof.
  unfold truediv. destruct (Qeq_bool b 0) eqn:E; [discriminate|].
  intros [= <-]. split; [|reflexivity].
  intros Hb. apply Qeq_bool_iff in Hb. congruence.
Qed.

Lemma investment_inv (d : gmap string Q) (v : Q) :
  investment d = Ok v →
  v = field "qty" d * field "avg_price" d ∧
  has_keys ["qty"; "avg_price"]%string d.
Proof.
  unfold investment.
  destruct (getitem d "qty") as [q|] eqn:Eq; [|discriminate].
  destruct (getitem d "avg_price") as [p|] eqn:Ep; [|discriminate].
  intros [= <-].
  destruct (getitem_inv _ _ _ Eq) as [-> Hq].
  destruct (getitem_inv _ _ _ Ep) as [-> Hp].
  split; [reflexivity|]. repeat constructor; assumption.
Qed.

Lemma weight_inv (total : Q) (d : gmap string Q) (v : Q) :
  weight total d = Ok v → ¬ total == 0.
Proof.
  unfold weight. destruct (investment d) as [w|]; [|discriminate].
  cbn [mbind result_bind]. intros Hv. apply truediv_Ok_inv in Hv. tauto.
Qed.

Lemma beta_term_inv (total : Q) (d : gmap string Q) (v : Q) :
  beta_term total d = Ok v → ¬ total == 0 ∧ is_Some (d !! "beta").
Proof.
  unfold beta_term. destruct (weight total d) as [w|] eqn:Ew; [|discriminate].
  cbn [mbind result_bind].
  destruct (getitem d "beta") as [b|] eqn:Eb; [|discriminate].
  intros _. split; [eapply weight_inv, Ew|].
  apply (getitem_inv _ _ _ Eb).
Qed.

Lemma return_term_inv (total : Q) (d : gmap string Q) (v : Q) :
  return_term total d = Ok v → is_Some (d !! "return").
Proof.
  unfold return_term. destruct (weight total d) as [w|]; [|discriminate].
  cbn [mbind result_bind].
  destruct (getitem d "return") as [r|] eqn:Er; [|discriminate].
  intros _. apply (getitem_inv _ _ _ Er).
Qed.

(** A calculator that returns was given every key and a nonzero total. *)
Lemma calculate_portfolio_metrics_Ok_inv (equities : list (gmap string Q))
    (benchmark_return risk_free_rate : Q) (r : Q * Q * Q) :
  calculate_portfolio_metrics equities benchmark_return risk_free_rate = Ok r →
  Forall (has_keys metric_keys) equities ∧ ¬ total_investment equities == 0.
Proof.
  unfold calculate_portfolio_metrics.
  destruct (mapM investment equities) as [investments|] eqn:Ei;
    [|discriminate].
  cbn [mbind result_bind].
  destruct (mapM_Ok_inv _ _ _ _ _ investment_inv Ei) as [-> Hvalue].
  fold (total_investment equities).
  destruct (mapM (beta_term (total_investment equities)) equities)
    as [beta_terms|] eqn:Eb; [|discriminate].
  cbn [mbind result_bind].
  destruct (mapM (return_term (total_investment equities)) equities)
    as [return_terms|] eqn:Er; [|discriminate].
  cbn [mbind result_bind].
  destruct (mapM (std_dev_term (total_investment equities) benchmark_return
                    risk_free_rate) equities)
    as [std_dev_terms|] eqn:Es; [|discriminate].
  cbn [mbind result_bind]. intros Hr.
  pose proof (mapM_Ok_Forall _ _ _ _ (beta_term_inv _) Eb) as Hbeta.
  pose proof (mapM_Ok_Forall _ _ _ _ (return_term_inv _) Er) as Hret.
  split.
  - rewrite Forall_forall in *. intros d Hd.
    specialize (Hvalue d Hd). specialize (Hbeta d Hd). specialize (Hret d Hd).
    unfold has_keys, metric_keys in *. rewrite Forall_forall in *.
    intros key. rewrite !elem_of_cons. intros Hkey.
    destruct (decide (key = "beta")) as [->|?]; [tauto|].
    destruct (decide (key = "return")) as [->|?]; [tauto|].
    apply Hvalue. rewrite !elem_of_cons. tauto.
  - destruct equities as [|d rest].
    + cbn in Es. injection Es as <-.
      destruct (truediv _ (py_sum [])) eqn:Et; [|discriminate].
      apply truediv_Ok_inv in Et. destruct Et as [Hne _].
      exfalso. apply Hne. reflexivity.
    + inversion Hbeta as [|? ? [Ht _] _]. exact Ht.
Qed.

End MetricsInversion.

Section MetricsAlgebra.

Local Open Scope Q_scope.

Import Stats.

Lemma portfolio_std_dev_factor (equities : list (gmap string Q))
    (benchmark_return risk_free_rate : Q) :
  portfolio_std_dev equities benchmark_return risk_free_rate
  == portfolio_beta equities * (benchmark_return - risk_free_rate).
Proof.
  unfold portfolio_std_dev, portfolio_beta.
  rewrite <- py_sum_scale, map_map. reflexivity.
Qed.

Lemma py_sum_map_ext {A : Type} (f g : A → Q) (l : list A) :
  Forall (λ a, f a == g a) l → py_sum (map f l) == py_sum (map g l).
Proof.
  induction 1 as [|a l Ha _ IH]; cbn [map]; [reflexivity|].
  rewrite !py_sum_cons, Ha, IH. reflexivity.
Qed.

Lemma py_sum_map_plus {A : Type} (f g : A → Q) (l : list A) :
  py_sum (map (λ a, f a + g a) l) == py_sum (map f l) + py_sum (map g l).
Proof.
  induction l as [|a l IH]; cbn [map].
  - rewrite !py_sum_nil. ring.
  - rewrite !py_sum_cons, IH. ring.
Qed.

Lemma py_sum_weight_of (equities : list (gmap string Q)) :
  ¬ total_investment equities == 0 →
  py_sum (map (weight_of equities) equities) == 1.
Proof.
  intros Ht. unfold weight_of at 1.
  rewrite (py_sum_weights equities (total_investment equities) Ht).
  fold (total_investment equities). field. exact Ht.
Qed.


(** The first component of a returned triple. *)
Lemma returned_beta_is_portfolio_beta (equities : list (gmap string Q))
    (benchmark_return risk_free_rate : Q) (r : Q * Q * Q) :
  calculate_portfolio_metrics equities benchmark_return risk_free_rate = Ok r →
  ¬ total_investment equities == 0 ∧ r.1.1 = portfolio_beta equities.
Proof.
  intros Hr.
  destruct (calculate_portfolio_metrics_Ok_inv _ _ _ _ Hr) as [Hk Ht].
  split; [exact Ht|].
  rewrite (calculate_portfolio_metrics_formulas _ _ _ Hk Ht) in Hr.
  destruct (truediv _ _) as [s|]; [|discriminate].
  cbn [mbind result_bind mret result_ret] in Hr.
  injection Hr as <-. reflexivity.
Qed.

End MetricsAlgebra.



(** X2: the three numbers the calculator returns are tied together:
    alpha = (sharpe - 1) * beta * (benchmark_return - risk_free_rate), so
    the alpha is zero exactly when the Sharpe ratio is 1; and alpha is the
    value-weighted return minus the CAPM expected return at the returned
    beta. *)
Theorem alpha_from_sharpe (equities : list (gmap string Q))
    (benchmark_return risk_free_rate beta alpha sharpe : Q) :
  Stats.calculate_portfolio_metrics equities benchmark_return risk_free_rate
  = Ok (beta, alpha, sharpe) →
  alpha == (sharpe - 1) * beta * (benchmark_return - risk_free_rate) ∧
  (alpha == 0 ↔ sharpe == 1) ∧
  alpha == portfolio_return equities
           - Stats.expected_return_CAPM risk_free_rate beta benchmark_return.
Proof.
  intros Hr.
  destruct (calculate_portfolio_metrics_Ok_inv _ _ _ _ Hr) as [Hk Ht].
  rewrite (calculate_portfolio_metrics_formulas _ _ _ Hk Ht) in Hr.
  destruct (truediv _ _) as [s|] eqn:Es; [|discriminate].
  apply truediv_Ok_inv in Es. destruct Es as [Hsd ->].
  cbn [mbind result_bind mret result_ret] in Hr. injection Hr as <- <- <-.
  rewrite portfolio_std_dev_factor in Hsd.
  set (B := portfolio_beta equities) in *.
  set (R := portfolio_return equities) in *.
  assert (Hs : (R - risk_free_rate)
               / portfolio_std_dev equities benchmark_return risk_free_rate
               == (R - risk_free_rate)
                  / (B * (benchmark_return - risk_free_rate))).
  { rewrite portfolio_std_dev_factor. reflexivity. }
  assert (H1 : R - risk_free_rate - B * (benchmark_return - risk_free_rate)
               == ((R - risk_free_rate)
                   / (B * (benchmark_return - risk_free_rate)) - 1)
                  * B * (benchmark_return - risk_free_rate)).
  { field. split.
    - intros H. apply Hsd. rewrite H. ring.
    - intros H. apply Hsd. rewrite H. ring. }
  split; [rewrite Hs; exact H1|]. split.
  - rewrite Hs, H1. split.
    + intros H0. rewrite <- Qmult_assoc in H0.
      apply Qmult_integral in H0. destruct H0 as [H0|H0]; [lra|].
      contradiction.
    + intros ->. ring.
  - unfold Stats.expected_return_CAPM. ring.
Qed.

Lemma alpha_from_sharpe_witness :
  ∃ beta alpha sharpe : Q,
    Stats.calculate_portfolio_metrics example_equities 0.07 0.02
    = Ok (beta, alpha, sharpe) ∧
    alpha == (sharpe - 1) * beta * (0.07 - 0.02).
Proof.
  do 3 eexists. split; [vm_compute; reflexivity|].
  apply (alpha_from_sharpe example_equities 0.07 0.02).
  vm_compute. reflexivity.
Defined.

Section MetricsInvariance.

Local Open Scope Q_scope.

Import Stats.












End MetricsInvariance.





Section MissingKeys.

(** A comprehension raises the exception of its first element that
    raises. *)
Lemma mapM_first_Raise {A B : Type} (f : A → result B) (e : exn)
    (pre post : list A) (a : A) :
  Forall (λ a', ∃ b, f a' = Ok b) pre →
  f a = Raise e →
  mapM f (pre ++ a :: post) = Raise e.
Proof.
  intros Hpre Ha. induction Hpre as [|a' pre [b Hb] _ IH].
  - cbn [app]. rewrite mapM_cons, Ha. reflexivity.
  - cbn [app]. rewrite mapM_cons, Hb. cbn [mbind result_bind].
    rewrite IH. reflexivity.
Qed.

Lemma getitem_missing (d : gmap string Q) (key : string) :
  d !! key = None → getitem d key = Raise (KeyError key).
Proof.
  intros H. unfold getitem. rewrite H. reflexivity.
Qed.

End MissingKeys.

(** X5: the CAPM helper gives the risk-free rate at beta 0 and the market
    return at beta 1, and it commutes with value weighting: at the beta the
    calculator returns, it is the value-weighted mean of the equities' own
    CAPM expected returns. *)
Theorem capm_of_portfolio_beta (equities : list (gmap string Q))
    (benchmark_return risk_free_rate beta alpha sharpe rf market : Q) :
  Stats.calculate_portfolio_metrics equities benchmark_return risk_free_rate
  = Ok (beta, alpha, sharpe) →
  Stats.expected_return_CAPM rf 0 market == rf ∧
  Stats.expected_return_CAPM rf 1 market == market ∧
  Stats.expected_return_CAPM rf beta market
  == py_sum (map (λ d, weight_of equities d
                       * Stats.expected_return_CAPM rf (field "beta" d)
                                                    market)%Q
                 equities).
Proof.
  intros Hr. unfold Stats.expected_return_CAPM.
  split; [ring|]. split; [ring|].
  destruct (returned_beta_is_portfolio_beta equities benchmark_return
              risk_free_rate _ Hr) as (Ht & Hbeta).
  cbn in Hbeta. subst beta.
  rewrite (py_sum_map_ext _
             (λ d, weight_of equities d * rf
                   + weight_of equities d * field "beta" d * (market - rf))%Q);
    [|apply Forall_forall; intros d _; ring].
  rewrite (py_sum_map_plus (λ d, weight_of equities d * rf)%Q
             (λ d, weight_of equities d * field "beta" d * (market - rf))%Q).
  rewrite <- (map_map (weight_of equities) (λ w, w * rf)%Q).
  rewrite <- (map_map (λ d, weight_of equities d * field "beta" d)%Q
                (λ w, w * (market - rf))%Q).
  rewrite !py_sum_scale, (py_sum_weight_of equities Ht).
  unfold portfolio_beta. ring.
Qed.

Lemma capm_of_portfolio_beta_witness :
  ∃ beta alpha sharpe : Q,
    Stats.calculate_portfolio_metrics example_equities 0.07 0.02
    = Ok (beta, alpha, sharpe) ∧
    Stats.expected_return_CAPM 0.02 beta 0.07
    == py_sum (map (λ d, weight_of example_equities d
                         * Stats.expected_return_CAPM 0.02 (field "beta" d)
                                                      0.07)%Q
                   example_equities).
Proof.
  do 3 eexists. split; [vm_compute; reflexivity|].
  refine (proj2 (proj2 (capm_of_portfolio_beta example_equities 0.07 0.02
                          _ _ _ 0.02 0.07 _))).
  vm_compute. reflexivity.
Defined.

(** X6: the Sharpe optimizer's objective coefficient of an equity is minus
    the Sharpe ratio that the calculator returns for the portfolio holding
    that equity alone, whose beta is the equity's beta. *)
Theorem coefficient_is_single_equity_sharpe (d : gmap string Q)
    (benchmark_return risk_free_rate : Q) :
  has_keys metric_keys d →
  ¬ field "qty" d * field "avg_price" d == 0 →
  ¬ field "beta" d == 0 →
  ¬ benchmark_return == risk_free_rate →
  ∃ beta alpha sharpe c : Q,
    Stats.calculate_portfolio_metrics [d] benchmark_return risk_free_rate
    = Ok (beta, alpha, sharpe) ∧
    BalanceRatio.sharpe_coefficient benchmark_return risk_free_rate d = Ok c ∧
    beta == field "beta" d ∧
    c == - sharpe.
Proof.
  intros Hk Hvalue Hbeta Hrate.
  assert (Ht : ¬ total_investment [d] == 0).
  { unfold total_investment. cbn [map].
    rewrite py_sum_cons, py_sum_nil. intros H. apply Hvalue. lra. }
  assert (Hw : weight_of [d] d == 1).
  { rewrite <- (py_sum_weight_of [d] Ht). cbn [map].
    rewrite py_sum_cons, py_sum_nil. ring. }
  assert (Hb : portfolio_beta [d] == field "beta" d).
  { unfold portfolio_beta. cbn [map].
    rewrite py_sum_cons, py_sum_nil, Hw. ring. }
  assert (Hr : portfolio_return [d] == field "return" d).
  { unfold portfolio_return. cbn [map].
    rewrite py_sum_cons, py_sum_nil, Hw. ring. }
  assert (Hsd : ¬ portfolio_std_dev [d] benchmark_return risk_free_rate == 0).
  { rewrite portfolio_std_dev_factor, Hb. intros H.
    apply Qmult_integral in H. destruct H as [H|H]; [contradiction|].
    apply Hrate. lra. }
  eexists _, _, _, _. split; [|split; [|split]].
  - rewrite (calculate_portfolio_metrics_formulas [d] _ _
               ltac:(constructor; [exact Hk|constructor]) Ht).
    rewrite (truediv_nonzero _ _ Hsd). reflexivity.
  - apply sharpe_coefficient_field; [|assumption..].
    eapply has_keys_weaken; [|exact Hk].
    intros key. unfold metric_keys. rewrite !elem_of_cons. tauto.
  - exact Hb.
  - rewrite portfolio_std_dev_factor, Hb, Hr. reflexivity.
Qed.

Lemma coefficient_is_single_equity_sharpe_witness :
  ∃ beta alpha sharpe c : Q,
    Stats.calculate_portfolio_metrics [first_equity] 0.07 0.02
    = Ok (beta, alpha, sharpe) ∧
    BalanceRatio.sharpe_coefficient 0.07 0.02 first_equity = Ok c ∧
    beta == field "beta" first_equity ∧
    c == - sharpe.
Proof.
  apply coefficient_is_single_equity_sharpe.
  - repeat constructor; vm_compute; eexists; reflexivity.
  - vm_compute. discriminate.
  - vm_compute. discriminate.
  - vm_compute. discriminate.
Defined.

(** X7: the calculator reports the first key its evaluation misses.  The
    total is summed over the whole list first, so the first equity without
    'qty' (or, having it, without 'avg_price') is reported whatever else is
    missing; with those two keys everywhere and a nonzero total, the first
    equity without 'beta' is reported, and with 'beta' everywhere too, the
    first equity without 'return'. *)
Theorem metrics_missing_key (pre post : list (gmap string Q))
    (d : gmap string Q) (benchmark_return risk_free_rate : Q) :
  Forall (has_keys ["qty"; "avg_price"]) pre →
  (d !! "qty" = None →
   Stats.calculate_portfolio_metrics (pre ++ d :: post) benchmark_return
                                     risk_free_rate
   = Raise (KeyError "qty")) ∧
  (is_Some (d !! "qty") → d !! "avg_price" = None →
   Stats.calculate_portfolio_metrics (pre ++ d :: post) benchmark_return
                                     risk_free_rate
   = Raise (KeyError "avg_price")) ∧
  (Forall (has_keys ["qty"; "avg_price"]) (d :: post) →
   ¬ total_investment (pre ++ d :: post) == 0 →
   Forall (λ d', is_Some (d' !! "beta")) pre →
   d !! "beta" = None →
   Stats.calculate_portfolio_metrics (pre ++ d :: post) benchmark_return
                                     risk_free_rate
   = Raise (KeyError "beta")) ∧
  (Forall (has_keys ["qty"; "avg_price"; "beta"]) (d :: post) →
   ¬ total_investment (pre ++ d :: post) == 0 →
   Forall (λ d', is_Some (d' !! "beta") ∧ is_Some (d' !! "return")) pre →
   d !! "return" = None →
   Stats.calculate_portfolio_metrics (pre ++ d :: post) benchmark_return
                                     risk_free_rate
   = Raise (KeyError "return")).
Proof.
  intros Hpre.
  assert (Hinv : Forall (λ d', ∃ v, Stats.investment d' = Ok v) pre).
  { eapply Forall_impl; [exact Hpre|]. intros d' Hd'.
    rewrite (investment_field d' Hd'). eauto. }
  split; [|split; [|split]].
  - intros Hq. unfold Stats.calculate_portfolio_metrics.
    rewrite (mapM_first_Raise Stats.investment (KeyError "qty"));
      [reflexivity|exact Hinv|].
    unfold Stats.investment. rewrite (getitem_missing d "qty" Hq).
    reflexivity.
  - intros Hq Hp. unfold Stats.calculate_portfolio_metrics.
    rewrite (mapM_first_Raise Stats.investment (KeyError "avg_price"));
      [reflexivity|exact Hinv|].
    unfold Stats.investment. rewrite (getitem_field d "qty" Hq).
    cbn [mbind result_bind].
    rewrite (getitem_missing d "avg_price" Hp). reflexivity.
  - intros Hrest Ht Hbeta Hb.
    assert (Hall : Forall (has_keys ["qty"; "avg_price"]) (pre ++ d :: post))
      by (apply Forall_app; split; assumption).
    unfold Stats.calculate_portfolio_metrics.
    rewrite (investments_fields _ Hall). cbn [mbind result_bind].
    fold (total_investment (pre ++ d :: post)).
    rewrite (mapM_first_Raise (Stats.beta_term _) (KeyError "beta"));
      [reflexivity| |].
    + rewrite Forall_forall in *. intros d' Hd'. unfold Stats.beta_term.
      rewrite weight_field by auto. cbn [mbind result_bind].
      rewrite (getitem_field d' "beta" (Hbeta d' Hd')). eauto.
    + inversion Hrest as [|? ? Hd _]; subst. unfold Stats.beta_term.
      rewrite weight_field by auto. cbn [mbind result_bind].
      rewrite (getitem_missing d "beta" Hb). reflexivity.
  - intros Hrest Ht Hboth Hr.
    assert (Hvk : ∀ d', has_keys ["qty"; "avg_price"; "beta"] d' →
                        has_keys ["qty"; "avg_price"] d').
    { intros d'. apply has_keys_weaken. intros key.
      rewrite !elem_of_cons. tauto. }
    assert (Hall : Forall (has_keys ["qty"; "avg_price"]) (pre ++ d :: post)).
    { apply Forall_app. split; [exact Hpre|].
      eapply Forall_impl; [exact Hrest|exact Hvk]. }
    assert (Hbetas : Forall (λ d', is_Some (d' !! "beta"))
                            (pre ++ d :: post)).
    { apply Forall_app. split.
      - eapply Forall_impl; [exact Hboth|]. cbn. tauto.
      - eapply Forall_impl; [exact Hrest|]. intros d' Hd'.
        eapply has_keys_lookup; [exact Hd'|]. rewrite !elem_of_cons. tauto. }
    unfold Stats.calculate_portfolio_metrics.
    rewrite (investments_fields _ Hall). cbn [mbind result_bind].
    fold (total_investment (pre ++ d :: post)).
    rewrite (mapM_Ok (Stats.beta_term _)
               (λ d', weight_of (pre ++ d :: post) d' * field "beta" d')%Q);
      cycle 1.
    { rewrite Forall_forall in *. intros d' Hd'. unfold Stats.beta_term.
      rewrite weight_field by auto. cbn [mbind result_bind].
      rewrite (getitem_field d' "beta" (Hbetas d' Hd')). reflexivity. }
    cbn [mbind result_bind].
    rewrite (mapM_first_Raise (Stats.return_term _) (KeyError "return"));
      [reflexivity| |].
    + rewrite Forall_forall in *. intros d' Hd'. unfold Stats.return_term.
      rewrite weight_field by auto. cbn [mbind result_bind].
      destruct (Hboth d' Hd') as [_ Hret].
      rewrite (getitem_field d' "return" Hret). eauto.
    + inversion Hrest as [|? ? Hd _]; subst. unfold Stats.return_term.
      rewrite weight_field by auto. cbn [mbind result_bind].
      rewrite (getitem_missing d "return" Hr). reflexivity.
Qed.

Lemma metrics_missing_key_witness :
  Stats.calculate_portfolio_metrics min_beta_example 0.07 0.02
  = Raise (KeyError "return").
Proof.
  apply (metrics_missing_key [] [list_to_map [("beta", 0.9%Q); ("qty", 150%Q);
                                              ("avg_price", 30%Q)]]
           (list_to_map [("beta", 1.2%Q); ("qty", 100%Q);
                         ("avg_price", 50%Q)]) 0.07 0.02).
  - constructor.
  - repeat constructor; vm_compute; eexists; reflexivity.
  - vm_compute. discriminate.
  - constructor.
  - reflexivity.
Defined.

(** ** More about the write-back *)

Section WriteBackShape.

Import Rebalance.

Lemma assign_qty_other_keys (x : option (list Q))
    (l : list (gmap string Q)) (i : nat) :
  Forall2 (λ d d' : gmap string Q,
             ∀ key, key ≠ "qty" → d' !! key = d !! key)
          l (store (assign_qty x i l)).
Proof.
  revert i. induction l as [|d rest IH]; intros i; [constructor|].
  cbn [assign_qty]. destruct (subscript x i) as [v|e].
  - rewrite store_after_head. constructor; [|apply IH].
    intros key Hkey. apply lookup_insert_ne. congruence.
  - cbn [store]. apply Forall2_same_length_lookup_2; [reflexivity|].
    intros j d1 d2 H1 H2 key _. congruence.
Qed.

Lemma with_rounded_qty_nil_r (l : list (gmap string Q)) :
  with_rounded_qty l [] = [].
Proof. destruct l; reflexivity. Qed.

(** A vector that runs out leaves the equities it covers updated and the
    others as they were. *)
Lemma assign_qty_short (xs : list Q) (l : list (gmap string Q)) (i : nat) :
  i ≤ length xs →
  length xs < i + length l →
  assign_qty (Some xs) i l
  = Failed IndexError
           (with_rounded_qty l (drop i xs) ++ drop (length xs - i) l).
Proof.
  revert i. induction l as [|d rest IH]; intros i Hle Hlen.
  - cbn [length] in Hlen. lia.
  - cbn [assign_qty subscript]. destruct (xs !! i) as [v|] eqn:Ev.
    + pose proof (lookup_lt_Some _ _ _ Ev) as Hi.
      rewrite (IH (S i)) by (cbn [length] in Hlen; lia).
      rewrite (drop_S _ _ _ Ev).
      replace (length xs - i) with (S (length xs - S i)) by lia.
      reflexivity.
    + apply lookup_ge_None in Ev.
      rewrite (drop_ge xs i Ev), with_rounded_qty_nil_r.
      replace (length xs - i) with 0 by lia. reflexivity.
Qed.

Lemma assign_qty_Some_Failed (xs : list Q) (l st : list (gmap string Q))
    (i : nat) (e : exn) :
  assign_qty (Some xs) i l = Failed e st → e = IndexError.
Proof.
  revert i st. induction l as [|d rest IH]; intros i st; [discriminate|].
  cbn [assign_qty subscript]. destruct (xs !! i) as [v|].
  - destruct (assign_qty (Some xs) (S i) rest) as [|e' st'] eqn:Er;
      [discriminate|].
    cbn [after_head]. intros He. injection He as He _. subst e'.
    eapply IH, Er.
  - intros He. injection He as He _. congruence.
Qed.

(** The write-back fails only by subscripting: at once on [None], or past
    the end of the vector. *)
Lemma assign_qty_Failed_inv (x : option (list Q)) (l st : list (gmap string Q))
    (i : nat) (e : exn) :
  assign_qty x i l = Failed e st → e = IndexError ∨ st = l.
Proof.
  destruct x as [xs|].
  - intros He. left. eapply assign_qty_Some_Failed, He.
  - destruct l; [discriminate|]. cbn. intros He.
    injection He as _ He. right. congruence.
Qed.

End WriteBackShape.

Section OptimizerShape.

Local Open Scope Q_scope.

(** An optimizer either stops before the solver with the portfolio as it
    was, or hands over one problem and then writes back. *)
Lemma optimizer_cases (equities : list (gmap string Q)) (p : call) :
  optimizers equities p →
  (∃ e, p = Done (Failed e equities)) ∨
  (∃ problem,
     p = Linprog problem
           (λ r, match r with
                 | Throws e => Failed e equities
                 | Result res =>
                     Rebalance.assign_qty (res_x res) 0 equities
                 end)).
Proof.
  intros Hp. destruct (optimizers_rebalance _ _ Hp) as [coefficient ->].
  unfold Rebalance.rebalance.
  destruct (Rebalance.formulate coefficient equities) as [problem|e].
  - right. eexists. reflexivity.
  - left. eexists. reflexivity.
Qed.

Lemma py_round_nonneg (x : Q) : 0 <= x → (0 ≤ py_round x)%Z.
Proof.
  intros Hx. pose proof (Qfloor_resp_le 0 x Hx) as Hf.
  change (Qfloor 0) with 0%Z in Hf. unfold py_round.
  destruct (x - inject_Z (Qfloor x) ?= 1 # 2); [|lia..].
  destruct (Z.even (Qfloor x)); lia.
Qed.

Lemma py_round_inject_Z (z : Z) : py_round (inject_Z z) = z.
Proof.
  unfold py_round. rewrite Qfloor_Z.
  destruct (Qcompare_spec (inject_Z z - inject_Z z) (1 # 2)) as [He|Hl|Hg].
  - exfalso. lra.
  - reflexivity.
  - exfalso. lra.
Qed.

Lemma with_rounded_qty_take (equities : list (gmap string Q)) (xs : list Q) :
  with_rounded_qty equities xs
  = with_rounded_qty (take (length xs) equities) xs.
Proof.
  unfold with_rounded_qty. revert xs.
  induction equities as [|d rest IH]; intros [|x xs]; try reflexivity.
  cbn [length take zip_with]. rewrite <- IH. reflexivity.
Qed.

Lemma with_rounded_qty_lookup (equities : list (gmap string Q)) (xs : list Q)
    (i : nat) (d' : gmap string Q) :
  with_rounded_qty equities xs !! i = Some d' →
  ∃ d x, equities !! i = Some d ∧ xs !! i = Some x ∧
         d' = <["qty" := inject_Z (py_round x)]> d.
Proof.
  unfold with_rounded_qty. rewrite lookup_zip_with_Some.
  intros (d & x & -> & Hd & Hx). eauto.
Qed.

End OptimizerShape.

(** X8: whatever the solver does, an optimizer neither adds nor removes an
    equity and changes no key other than 'qty': 'beta', 'avg_price',
    'return' and any other entry of each dict are as they were, on a normal
    return and on every failure. *)
Theorem optimizers_change_only_qty (equities : list (gmap string Q))
    (p : call) (linprog : lp → reply) :
  optimizers equities p →
  length (store (run linprog p)) = length equities ∧
  ∀ i (d d' : gmap string Q) key,
    equities !! i = Some d →
    store (run linprog p) !! i = Some d' →
    key ≠ "qty" →
    d' !! key = d !! key.
Proof.
  intros Hp.
  assert (H : Forall2 (λ d d' : gmap string Q,
                         ∀ key, key ≠ "qty" → d' !! key = d !! key)
                      equities (store (run linprog p))).
  { assert (Hsame : Forall2 (λ d d' : gmap string Q,
                               ∀ key, key ≠ "qty" → d' !! key = d !! key)
                            equities equities).
    { apply Forall2_same_length_lookup_2; [reflexivity|].
      intros j d1 d2 H1 H2 key _. congruence. }
    destruct (optimizer_cases _ _ Hp) as [[e ->]|[problem ->]]; cbn [run store].
    - exact Hsame.
    - destruct (linprog problem) as [res|e]; [|exact Hsame].
      apply assign_qty_other_keys. }
  split.
  - symmetry. eapply Forall2_length, H.
  - intros i d d' key Hd Hd' Hkey.
    eapply (Forall2_lookup_lr _ _ _ _ _ _ H Hd Hd'). exact Hkey.
Qed.

Lemma optimizers_change_only_qty_witness :
  length (store (run all_in_first
                     (BalanceRatio.maximize_sharpe_ratio example_equities
                                                         0.07 0.02)))
  = length example_equities.
Proof.
  apply (optimizers_change_only_qty example_equities _ all_in_first).
  right. exists 0.07%Q, 0.02%Q. reflexivity.
Defined.

(** X9: after a successful optimization every quantity is a non-negative
    integer: each equity holds round(x[i]) under 'qty', and rounding a
    number within the bounds [0, +infinity) never goes below zero. *)
Theorem quantities_nonnegative_integers (equities : list (gmap string Q))
    (p : call) (linprog : lp → reply) (xs : list Q) :
  optimizers equities p →
  succeeds linprog p xs →
  run linprog p = Returned (with_rounded_qty equities xs) ∧
  Forall (λ d : gmap string Q,
            ∃ z : Z, d !! "qty" = Some (inject_Z z) ∧ (0 ≤ z)%Z)
         (with_rounded_qty equities xs).
Proof.
  intros Hp Hs.
  destruct (run_succeeds equities p linprog xs Hp Hs) as (Hrun & Hlen & _).
  split; [exact Hrun|].
  destruct Hs as (problem & k & -> & res & _ & _ & _ & _ & Hbd).
  destruct (optimizers_rebalance _ _ Hp) as [coefficient Hreb].
  symmetry in Hreb. apply rebalance_Linprog_inv in Hreb.
  destruct Hreb as [Hf _]. apply formulate_Ok_inv in Hf.
  destruct Hf as (_ & _ & _ & _ & Hbounds). rewrite Hbounds in Hbd.
  apply Forall_lookup. intros i d' Hd'.
  apply with_rounded_qty_lookup in Hd'.
  destruct Hd' as (d & x & Hd & Hx & ->).
  exists (py_round x). rewrite lookup_insert_eq. split; [reflexivity|].
  apply py_round_nonneg.
  assert (Hb : map (λ _ : gmap string Q, (0%Q, @None Q)) equities !! i
               = Some (0%Q, None)).
  { rewrite list_lookup_fmap, Hd. reflexivity. }
  destruct (Forall2_lookup_lr _ _ _ _ _ _ Hbd Hb Hx) as [Hlo _].
  exact Hlo.
Qed.

Lemma quantities_nonnegative_integers_witness :
  Forall (λ d : gmap string Q,
            ∃ z : Z, d !! "qty" = Some (inject_Z z) ∧ (0 ≤ z)%Z)
         (with_rounded_qty min_beta_example [190%Q; 0%Q]).
Proof.
  apply (quantities_nonnegative_integers min_beta_example
           (MinBeta.minimize_portfolio_beta min_beta_example)
           all_in_first [190%Q; 0%Q]).
  - left. reflexivity.
  - exact min_beta_example_succeeds.
Defined.

(** X10: when the vector the solver returns has fewer entries than there
    are equities, the optimizer fails with an IndexError after it has
    overwritten the quantity of every equity the vector covers; the
    remaining equities keep their quantities.  The update is not all or
    nothing. *)
Theorem short_vector_updates_a_prefix (equities : list (gmap string Q))
    (p : call) (linprog : lp → reply) (problem : lp) (k : reply → outcome)
    (res : OptimizeResult) (xs : list Q) :
  optimizers equities p →
  p = Linprog problem k →
  linprog problem = Result res →
  res_x res = Some xs →
  length xs < length equities →
  run linprog p
  = Failed IndexError
           (with_rounded_qty (take (length xs) equities) xs
            ++ drop (length xs) equities).
Proof.
  intros Hp Hcall Hres Hx Hlen.
  destruct (optimizer_cases _ _ Hp) as [[e ->]|[problem' Hp']];
    [discriminate|].
  rewrite Hp' in Hcall. injection Hcall as -> _.
  rewrite Hp'. cbn [run]. rewrite Hres, Hx.
  rewrite assign_qty_short by lia.
  rewrite drop_0, Nat.sub_0_r, (with_rounded_qty_take equities xs).
  reflexivity.
Qed.

Lemma short_vector_updates_a_prefix_witness :
  run one_entry (MinBeta.minimize_portfolio_beta min_beta_example)
  = Failed IndexError
           (with_rounded_qty (take 1 min_beta_example) [190%Q]
            ++ drop 1 min_beta_example).
Proof.
  destruct (min_beta_reaches_solver min_beta_example) as [k Hk].
  { repeat constructor; vm_compute; eexists; reflexivity. }
  eapply (short_vector_updates_a_prefix min_beta_example _ one_entry
            _ _ _ [190%Q]).
  - left. reflexivity.
  - exact Hk.
  - reflexivity.
  - reflexivity.
  - cbn. lia.
Defined.

(** X11: an optimizer that fails with anything but an IndexError has left
    the portfolio exactly as it was: a missing key or a division by zero
    while the problem is built, an exception raised by the solver, and a
    result without a vector all leave every quantity untouched. *)
Theorem failure_without_IndexError_changes_nothing
    (equities st : list (gmap string Q)) (p : call) (linprog : lp → reply)
    (e : exn) :
  optimizers equities p →
  run linprog p = Failed e st →
  e ≠ IndexError →
  st = equities.
Proof.
  intros Hp Hrun He.
  destruct (optimizer_cases _ _ Hp) as [[e' ->]|[problem ->]];
    cbn [run] in Hrun.
  - congruence.
  - destruct (linprog problem) as [res|e']; [|congruence].
    destruct (assign_qty_Failed_inv _ _ _ _ _ Hrun); congruence.
Qed.

Lemma failure_without_IndexError_changes_nothing_witness :
  store (run all_in_first
             (BalanceRatio.maximize_sharpe_ratio example_equities 0.02 0.02))
  = example_equities.
Proof.
  apply (failure_without_IndexError_changes_nothing
           example_equities _
           (BalanceRatio.maximize_sharpe_ratio example_equities 0.02 0.02)
           all_in_first ZeroDivisionError).
  - right. exists 0.02%Q, 0.02%Q. reflexivity.
  - vm_compute. reflexivity.
  - discriminate.
Defined.

(** ** More about the problem that is built *)

Section ProblemFacts.

Local Open Scope Q_scope.

Lemma getitem_cases (key : string) (d : gmap string Q) :
  (∃ v, getitem d key = Ok v) ∨ getitem d key = Raise (KeyError key).
Proof.
  unfold getitem. destruct (d !! key); [left; eauto|right; reflexivity].
Qed.

Lemma dot_rounded_integers (ps xs : list Q) :
  Forall (λ x, ∃ z : Z, x == inject_Z z) xs →
  dot ps (map (λ v, inject_Z (py_round v)) xs) == dot ps xs.
Proof.
  intros Hxs. revert ps. induction Hxs as [|x xs [z Hz] _ IH]; intros [|p ps];
    try reflexivity.
  cbn [map dot]. rewrite IH.
  rewrite (py_round_comp x (inject_Z z) Hz), py_round_inject_Z, <- Hz.
  reflexivity.
Qed.

(** In a dot product of numbers that are not negative no term exceeds the
    total. *)
Lemma dot_term_le (ps xs : list Q) (i : nat) (p x : Q) :
  Forall (λ p, 0 <= p) ps →
  Forall (λ x, 0 <= x) xs →
  ps !! i = Some p → xs !! i = Some x →
  p * x <= dot ps xs.
Proof.
  intros Hps. revert xs i. induction Hps as [|p0 ps Hp0 Hps IH];
    intros xs i Hxs Hp Hx; [discriminate|].
  destruct Hxs as [|x0 xs Hx0 Hxs]; [discriminate|].
  assert (Hrest : 0 <= dot ps xs).
  { clear -Hps Hxs. revert xs Hxs.
    induction Hps as [|p ps Hp _ IH]; intros xs Hxs; [cbn; lra|].
    destruct Hxs as [|x xs Hx Hxs]; [cbn; lra|].
    cbn [dot]. specialize (IH xs Hxs). nra. }
  cbn [dot]. destruct i as [|i].
  - injection Hp as ->. injection Hx as ->. lra.
  - specialize (IH xs i Hxs Hp Hx). nra.
Qed.

End ProblemFacts.

(** X12: a missing key stops an optimizer before the solver is called and
    leaves the portfolio as it was.  The beta-minimizer reads 'beta' of
    every equity, then 'avg_price' of every equity, then 'qty': the
    KeyError names the first of these keys that some equity lacks. *)
Theorem min_beta_missing_key (equities : list (gmap string Q)) :
  (Exists (λ d, d !! "beta" = None) equities →
   MinBeta.minimize_portfolio_beta equities
   = Done (Failed (KeyError "beta") equities)) ∧
  (Forall (λ d, is_Some (d !! "beta")) equities →
   Exists (λ d, d !! "avg_price" = None) equities →
   MinBeta.minimize_portfolio_beta equities
   = Done (Failed (KeyError "avg_price") equities)) ∧
  (Forall (λ d, is_Some (d !! "beta")) equities →
   Forall (λ d, is_Some (d !! "avg_price")) equities →
   Exists (λ d, d !! "qty" = None) equities →
   MinBeta.minimize_portfolio_beta equities
   = Done (Failed (KeyError "qty") equities)).
Proof.
  unfold MinBeta.minimize_portfolio_beta, Rebalance.rebalance,
    Rebalance.formulate.
  split; [|split].
  - intros Hex.
    rewrite (mapM_Raise (λ equity, getitem equity "beta") (KeyError "beta"));
      [reflexivity| |].
    + apply Forall_forall. intros d _. apply getitem_cases.
    + eapply Exists_impl; [exact Hex|]. intros d. apply getitem_missing.
  - intros Hbeta Hex.
    rewrite (getitems_fields "beta" equities Hbeta).
    cbn [mbind result_bind].
    rewrite (mapM_Raise (λ equity, getitem equity "avg_price")
               (KeyError "avg_price")); [reflexivity| |].
    + apply Forall_forall. intros d _. apply getitem_cases.
    + eapply Exists_impl; [exact Hex|]. intros d. apply getitem_missing.
  - intros Hbeta Hprice Hex.
    rewrite (getitems_fields "beta" equities Hbeta).
    cbn [mbind result_bind].
    rewrite (getitems_fields "avg_price" equities Hprice).
    cbn [mbind result_bind].
    rewrite (mapM_Raise Rebalance.budget_term (KeyError "qty"));
      [reflexivity| |].
    + eapply Forall_impl; [exact Hprice|]. intros d Hd.
      unfold Rebalance.budget_term. rewrite (getitem_field d _ Hd).
      cbn [mbind result_bind].
      destruct (getitem_cases "qty" d) as [[v Hv]|Hv]; rewrite Hv;
        [left; eexists|right]; reflexivity.
    + rewrite Exists_exists in *. destruct Hex as (d & Hd & Hq).
      exists d. split; [exact Hd|]. rewrite Forall_forall in Hprice.
      unfold Rebalance.budget_term.
      rewrite (getitem_field d _ (Hprice d Hd)). cbn [mbind result_bind].
      rewrite (getitem_missing d "qty" Hq). reflexivity.
Qed.

Lemma min_beta_missing_key_witness :
  MinBeta.minimize_portfolio_beta
    [list_to_map [("beta", 1.2%Q); ("avg_price", 50%Q)];
     list_to_map [("beta", 0.9%Q); ("qty", 150%Q)]]
  = Done (Failed (KeyError "avg_price")
            [list_to_map [("beta", 1.2%Q); ("avg_price", 50%Q)];
             list_to_map [("beta", 0.9%Q); ("qty", 150%Q)]]).
Proof.
  apply min_beta_missing_key.
  - repeat constructor; vm_compute; eexists; reflexivity.
  - apply Exists_cons_tl, Exists_cons_hd. reflexivity.
Defined.

(** X13: the Sharpe optimizer reads 'return' before 'beta' and divides
    last: the first equity that lacks 'return' is reported with a KeyError
    even when its beta is zero or benchmark_return equals risk_free_rate,
    provided the equities before it evaluate; the solver is not called and
    the portfolio is left as it was. *)
Theorem sharpe_missing_return (pre post : list (gmap string Q))
    (d : gmap string Q) (benchmark_return risk_free_rate : Q) :
  Forall (λ d', has_keys ["return"; "beta"] d' ∧ ¬ field "beta" d' == 0) pre →
  (pre ≠ [] → ¬ benchmark_return == risk_free_rate) →
  d !! "return" = None →
  BalanceRatio.maximize_sharpe_ratio (pre ++ d :: post) benchmark_return
                                     risk_free_rate
  = Done (Failed (KeyError "return") (pre ++ d :: post)).
Proof.
  intros Hpre Hrate Hret.
  unfold BalanceRatio.maximize_sharpe_ratio, Rebalance.rebalance,
    Rebalance.formulate.
  rewrite (mapM_first_Raise
             (BalanceRatio.sharpe_coefficient benchmark_return risk_free_rate)
             (KeyError "return")); [reflexivity| |].
  - destruct pre as [|d0 pre0]; [constructor|].
    specialize (Hrate ltac:(discriminate)).
    eapply Forall_impl; [exact Hpre|]. intros d' [Hk Hb].
    rewrite (sharpe_coefficient_field _ _ d' Hk Hb Hrate). eauto.
  - unfold BalanceRatio.sharpe_coefficient.
    rewrite (getitem_missing d "return" Hret). reflexivity.
Qed.

Lemma sharpe_missing_return_witness :
  BalanceRatio.maximize_sharpe_ratio
    ([] ++ list_to_map [("beta", 0%Q); ("qty", 100%Q); ("avg_price", 50%Q)]
        :: []) 0.02 0.02
  = Done (Failed (KeyError "return")
            ([] ++ list_to_map [("beta", 0%Q); ("qty", 100%Q);
                                ("avg_price", 50%Q)] :: [])).
Proof.
  apply sharpe_missing_return.
  - constructor.
  - intros H. exfalso. apply H. reflexivity.
  - reflexivity.
Defined.

(** X14: on the empty portfolio both optimizers do call the solver, with a
    problem of no variables (one empty constraint row with right-hand side
    0), also when benchmark_return equals risk_free_rate; whatever result
    the solver returns they return the empty list, and an exception of the
    solver is passed on. *)
Theorem empty_portfolio_calls_solver (linprog : lp → reply)
    (benchmark_return risk_free_rate : Q) :
  (∃ k, MinBeta.minimize_portfolio_beta [] = Linprog empty_problem k) ∧
  (∃ k, BalanceRatio.maximize_sharpe_ratio [] benchmark_return risk_free_rate
        = Linprog empty_problem k) ∧
  run linprog (MinBeta.minimize_portfolio_beta [])
  = match linprog empty_problem with
    | Result _ => Returned []
    | Throws e => Failed e []
    end ∧
  run linprog (BalanceRatio.maximize_sharpe_ratio [] benchmark_return
                                                  risk_free_rate)
  = match linprog empty_problem with
    | Result _ => Returned []
    | Throws e => Failed e []
    end.
Proof.
  split; [eexists; reflexivity|]. split; [eexists; reflexivity|].
  split; unfold empty_problem; cbn; destruct (linprog _); reflexivity.
Qed.

(** X15: when the vector the solver returns is integral, rounding changes
    nothing and a successful optimization conserves the portfolio value
    exactly. *)
Theorem integral_solution_conserves_value (equities : list (gmap string Q))
    (p : call) (linprog : lp → reply) (xs : list Q) :
  optimizers equities p →
  succeeds linprog p xs →
  Forall (λ x, ∃ z : Z, x == inject_Z z) xs →
  run linprog p = Returned (with_rounded_qty equities xs) ∧
  portfolio_value (with_rounded_qty equities xs) == portfolio_value equities.
Proof.
  intros Hp Hs Hz.
  destruct (run_succeeds equities p linprog xs Hp Hs) as (Hrun & Hlen & Hdot).
  split; [exact Hrun|].
  rewrite (portfolio_value_with_rounded_qty equities xs Hlen).
  rewrite (dot_rounded_integers _ xs Hz). exact Hdot.
Qed.

Lemma integral_solution_conserves_value_witness :
  portfolio_value (with_rounded_qty min_beta_example [190%Q; 0%Q])
  == portfolio_value min_beta_example.
Proof.
  refine (proj2 (integral_solution_conserves_value min_beta_example
                   (MinBeta.minimize_portfolio_beta min_beta_example)
                   all_in_first [190%Q; 0%Q] _ _ _)).
  - left. reflexivity.
  - exact min_beta_example_succeeds.
  - repeat constructor; [exists 190%Z|exists 0%Z]; reflexivity.
Defined.

(** X16: the holdings an optimizer is given are themselves a feasible
    point of the problem it hands to the solver, as long as no quantity is
    negative: the problem is then never infeasible, and an optimal answer
    of the solver has an objective no larger than that of the holdings. *)
Theorem holdings_are_feasible (equities : list (gmap string Q)) (p : call)
    (problem : lp) (k : reply → outcome) :
  optimizers equities p →
  p = Linprog problem k →
  Forall (λ d, 0 <= field "qty" d)%Q equities →
  feasible problem (map (field "qty") equities) ∧
  ∀ xs, optimal problem xs →
        (dot (lp_c problem) xs
         <= dot (lp_c problem) (map (field "qty") equities))%Q.
Proof.
  intros Hp Hcall Hqty.
  destruct (optimizers_rebalance _ _ Hp) as [coefficient Hreb].
  rewrite Hreb in Hcall. apply rebalance_Linprog_inv in Hcall.
  destruct Hcall as [Hf _]. apply formulate_Ok_inv in Hf.
  destruct Hf as (Hc & _ & HA & Hb & Hbd).
  assert (Hfeas : feasible problem (map (field "qty") equities)).
  { unfold feasible. rewrite HA, Hb, Hbd. split; [|split].
    - rewrite length_map. symmetry. eapply mapM_length, Hc.
    - constructor; [|constructor]. unfold portfolio_value.
      rewrite py_sum_dot. reflexivity.
    - clear -Hqty. induction Hqty as [|d rest Hd _ IH]; cbn [map];
        constructor; [|exact IH].
      split; [exact Hd|exact I]. }
  split; [exact Hfeas|]. intros xs [_ Hopt]. apply Hopt, Hfeas.
Qed.

Lemma holdings_are_feasible_witness :
  ∃ problem k,
    MinBeta.minimize_portfolio_beta min_beta_example = Linprog problem k ∧
    feasible problem (map (field "qty") min_beta_example).
Proof.
  destruct (min_beta_reaches_solver min_beta_example) as [k Hk].
  { repeat constructor; vm_compute; eexists; reflexivity. }
  eexists _, k. split; [exact Hk|].
  eapply (holdings_are_feasible min_beta_example).
  - left. reflexivity.
  - exact Hk.
  - repeat constructor; vm_compute; discriminate.
Defined.

(** X17: with prices that are not negative, the budget constraint and the
    bounds confine every feasible vector: each entry is at least 0 and its
    value avg_price[i] * x[i] is at most the value of the whole portfolio.
    With positive prices the problem is therefore never unbounded. *)
Theorem feasible_region_is_bounded (equities : list (gmap string Q))
    (p : call) (problem : lp) (k : reply → outcome) (xs : list Q) :
  optimizers equities p →
  p = Linprog problem k →
  Forall (λ d, 0 <= field "avg_price" d)%Q equities →
  feasible problem xs →
  ∀ i (d : gmap string Q) x,
    equities !! i = Some d → xs !! i = Some x →
    (0 <= x ∧ field "avg_price" d * x <= portfolio_value equities)%Q.
Proof.
  intros Hp Hcall Hprice (Hlen & Heq & Hbounds) i d x Hd Hx.
  destruct (optimizers_rebalance _ _ Hp) as [coefficient Hreb].
  rewrite Hreb in Hcall. apply rebalance_Linprog_inv in Hcall.
  destruct Hcall as [Hf _]. apply formulate_Ok_inv in Hf.
  destruct Hf as (_ & _ & HA & Hb & Hbd).
  rewrite HA, Hb in Heq. rewrite Hbd in Hbounds.
  inversion Heq as [|? ? ? ? Hrow _]; subst.
  assert (Hxs : Forall (λ x, 0 <= x)%Q xs).
  { apply Forall_lookup. intros j y Hy.
    destruct (lookup_lt_is_Some_2 equities j) as [dj Hdj].
    { apply Forall2_length in Hbounds. rewrite length_map in Hbounds.
      rewrite Hbounds. eapply lookup_lt_Some, Hy. }
    assert (Hbj : map (λ _ : gmap string Q, (0%Q, @None Q)) equities !! j
                  = Some (0%Q, None))
      by (rewrite list_lookup_fmap, Hdj; reflexivity).
    destruct (Forall2_lookup_lr _ _ _ _ _ _ Hbounds Hbj Hy) as [Hlo _].
    exact Hlo. }
  split.
  - rewrite Forall_lookup in Hxs. eapply Hxs, Hx.
  - rewrite <- Hrow. apply (dot_term_le _ xs i).
    + rewrite Forall_map. exact Hprice.
    + exact Hxs.
    + rewrite list_lookup_fmap, Hd. reflexivity.
    + exact Hx.
Qed.

Lemma feasible_region_is_bounded_witness :
  (0 <= 190 ∧ field "avg_price" first_equity * 190
             <= portfolio_value min_beta_example)%Q.
Proof.
  destruct min_beta_example_succeeds
    as (problem & k' & Hk' & res & _ & _ & Hfeas).
  apply (feasible_region_is_bounded min_beta_example _ problem k'
           [190%Q; 0%Q] (or_introl eq_refl) Hk'
           ltac:(repeat constructor; vm_compute; discriminate) Hfeas
           0%nat (list_to_map [("beta", 1.2%Q); ("qty", 100%Q);
                               ("avg_price", 50%Q)]) 190%Q eq_refl eq_refl).
Defined.
